(** * check_flows.py: VPC flow aggregates against a routing topology

    A shallow embedding of [src/check_flows.py]: the topology loader
    [excel_to_cidr_dict], the per-row reachability check of [main] and the
    command-line driver around them, with the parts of the Python standard
    library they call ([str] methods, [csv.DictReader], [ipaddress]).

    Conventions.
    - A Python [str] is a [string] whose characters are the code points
      0..255; a Python [int] is a [Z]; a [dict] with string keys is a
      [gmap string _]; a [set] of strings is a [gset string].
    - Code that can raise returns an [outcome]. *)

From Stdlib Require Import ZArith Ascii String List Lia Permutation.
From stdpp Require Import base option list gmap strings pretty.

Local Open Scope Z_scope.

(** ** Python values and exceptions *)

(** A cell of the workbook or a value of a [DictReader] row: [None] or a
    [str]. Cells that hold numbers or dates are not modelled. *)
Inductive pyval :=
  | VNone
  | VStr (s : string).

Global Instance pyval_eq_dec : EqDecision pyval.
Proof. solve_decision. Defined.

Inductive exn :=
  | AttributeError
  | KeyError (k : pyval)
  | UnboundLocalError (name : string)
  | AddressValueError
  | NetmaskValueError
  | ValueError
  | OSError.

Global Instance exn_eq_dec : EqDecision exn.
Proof. solve_decision. Defined.

Inductive outcome (A : Type) :=
  | Ok (a : A)
  | Raise (e : exn).
Arguments Ok {A} a.
Arguments Raise {A} e.

Global Instance outcome_ret : MRet outcome := λ A a, Ok a.
Global Instance outcome_bind : MBind outcome := λ A B k m,
  match m with
  | Ok a => k a
  | Raise e => Raise e
  end.

(** [for x in xs: st = body(x, st)], stopping at the first exception. *)
Fixpoint for_each {A S} (body : A → S → outcome S) (xs : list A) (st : S)
  : outcome S :=
  match xs with
  | [] => Ok st
  | x :: xs' => st' ← body x st; for_each body xs' st'
  end.

(** [except ValueError]: also catches its two subclasses of [ipaddress]. *)
Definition is_ValueError (e : exn) : bool :=
  match e with
  | ValueError | AddressValueError | NetmaskValueError => true
  | _ => false
  end.

(** ** [str] methods *)

Module Str.

Definition ord (c : ascii) : Z := Z.of_N (N_of_ascii c).

(** [s.replace(c, '')] for a one-character [c]. *)
Fixpoint remove (c : ascii) (s : string) : string :=
  match s with
  | EmptyString => EmptyString
  | String a s' =>
      if Ascii.eqb a c then remove c s' else String a (remove c s')
  end.

(** [s.split(sep)] for a one-character [sep]: first field and the others. *)
Fixpoint split_fields (sep : ascii) (s : string) : string * list string :=
  match s with
  | EmptyString => (EmptyString, [])
  | String a s' =>
      let '(w, ws) := split_fields sep s' in
      if Ascii.eqb a sep then (EmptyString, w :: ws) else (String a w, ws)
  end.

Definition split (sep : ascii) (s : string) : list string :=
  let '(w, ws) := split_fields sep s in w :: ws.

(** [sep.join(l)]. *)
Fixpoint join (sep : string) (l : list string) : string :=
  match l with
  | [] => ""
  | [w] => w
  | w :: ws => w +:+ sep +:+ join sep ws
  end.

(** [Py_UNICODE_ISSPACE] on the code points below 256. *)
Definition isspace (c : ascii) : bool :=
  let n := ord c in
  ((9 <=? n) && (n <=? 13)) || ((28 <=? n) && (n <=? 32))
  || (n =? 133) || (n =? 160).

Fixpoint lstrip (s : string) : string :=
  match s with
  | EmptyString => EmptyString
  | String a s' => if isspace a then lstrip s' else s
  end.

Fixpoint rstrip (s : string) : string :=
  match s with
  | EmptyString => EmptyString
  | String a s' =>
      match rstrip s' with
      | EmptyString => if isspace a then EmptyString else String a EmptyString
      | r => String a r
      end
  end.

(** [s.strip()]. *)
Definition strip (s : string) : string := rstrip (lstrip s).

Fixpoint all_chars (p : ascii → bool) (s : string) : bool :=
  match s with
  | EmptyString => true
  | String a s' => p a && all_chars p s'
  end.

Fixpoint any_char (p : ascii → bool) (s : string) : bool :=
  match s with
  | EmptyString => false
  | String a s' => p a || any_char p s'
  end.

Definition is_decimal_digit (c : ascii) : bool :=
  (48 <=? ord c) && (ord c <=? 57).

(** [s.isascii() and s.isdigit()]: non-empty, ASCII digits only. *)
Definition isascii_isdigit (s : string) : bool :=
  match s with
  | EmptyString => false
  | _ => all_chars is_decimal_digit s
  end.

(** [int(s, 10)] on a string of ASCII digits. *)
Fixpoint int_from (acc : Z) (s : string) : Z :=
  match s with
  | EmptyString => acc
  | String a s' => int_from (10 * acc + (ord a - 48)) s'
  end.

Definition int (s : string) : Z := int_from 0 s.

(** [str.isprintable] on the code points below 256. *)
Definition isprintable (c : ascii) : bool :=
  let n := ord c in
  ((32 <=? n) && (n <? 127)) || ((161 <=? n) && negb (n =? 173)).

Definition hexdigit (n : Z) : ascii :=
  ascii_of_N (Z.to_N (if n <? 10 then 48 + n else 87 + n)).

Definition backslash : ascii := "\"%char.
Definition squote : ascii := "'"%char.
Definition dquote : ascii := "034"%char.

(** One character of [repr(s)] between the quotes. *)
Definition repr_char (quote c : ascii) : string :=
  let n := ord c in
  if Ascii.eqb c quote || Ascii.eqb c backslash
  then String backslash (String c EmptyString)
  else if n =? 9 then String backslash "t"
  else if n =? 10 then String backslash "n"
  else if n =? 13 then String backslash "r"
  else if isprintable c then String c EmptyString
  else String backslash
         (String "x" (String (hexdigit (n / 16))
                        (String (hexdigit (n mod 16)) EmptyString))).

Fixpoint repr_body (quote : ascii) (s : string) : string :=
  match s with
  | EmptyString => EmptyString
  | String a s' => repr_char quote a +:+ repr_body quote s'
  end.

(** [repr(s)]: single quotes unless [s] has a single and no double quote. *)
Definition repr (s : string) : string :=
  let quote :=
    if any_char (Ascii.eqb squote) s && negb (any_char (Ascii.eqb dquote) s)
    then dquote else squote in
  String quote (repr_body quote s +:+ String quote EmptyString).

End Str.

(** [str(v)] and [repr(v)], as f-strings and [KeyError] use them. *)
Definition py_str (v : pyval) : string :=
  match v with
  | VNone => "None"
  | VStr s => s
  end.

Definition py_repr (v : pyval) : string :=
  match v with
  | VNone => "None"
  | VStr s => Str.repr s
  end.

(** [str(l)] of a list of strings. *)
Definition list_str (l : list string) : string :=
  "[" +:+ Str.join ", " (map Str.repr l) +:+ "]".

(** Truth value of a cell: [None] and [''] are false. *)
Definition truthy (v : pyval) : bool :=
  match v with
  | VNone => false
  | VStr EmptyString => false
  | VStr _ => true
  end.


(** ** [ipaddress]: IPv4 networks *)

Module ipaddress.

Definition _max_prefixlen : Z := 32.
Definition _ALL_ONES : Z := 2 ^ 32 - 1.

(** An [IPv4Network] object: its network address and prefix length. *)
Record IPv4Net := mkNet { network_address : Z; prefixlen : Z }.

Definition _parse_octet (octet_str : string) : outcome Z :=
  match octet_str with
  | EmptyString => Raise ValueError
  | String c0 _ =>
      if negb (Str.isascii_isdigit octet_str) then Raise ValueError
      else if 3 <? Z.of_nat (String.length octet_str) then Raise ValueError
      else if negb (String.eqb octet_str "0") && Ascii.eqb c0 "0"
      then Raise ValueError
      else
        let octet_int := Str.int octet_str in
        if 255 <? octet_int then Raise ValueError else Ok octet_int
  end.

(** [int.from_bytes(bs, 'big')]. *)
Definition from_bytes_big (bs : list Z) : Z :=
  foldl (λ acc b, 256 * acc + b) 0 bs.

(** [_BaseV4._ip_int_from_string]; a [ValueError] of an octet is re-raised
    as [AddressValueError]. *)
Definition _ip_int_from_string (ip_str : string) : outcome Z :=
  match ip_str with
  | EmptyString => Raise AddressValueError
  | _ =>
      let octets := Str.split "." ip_str in
      if negb (length octets =? 4)%nat then Raise AddressValueError
      else
        match for_each (λ o acc, b ← _parse_octet o; Ok (acc ++ [b])) octets []
        with
        | Ok bs => Ok (from_bytes_big bs)
        | Raise _ => Raise AddressValueError
        end
  end.

(** [IPv4Address(addr_str)]. *)
Definition IPv4Address (addr_str : string) : outcome Z :=
  if Str.any_char (Ascii.eqb "/") addr_str then Raise AddressValueError
  else _ip_int_from_string addr_str.

Definition _ip_int_from_prefix (p : Z) : Z :=
  Z.lxor _ALL_ONES (Z.shiftr _ALL_ONES p).

Definition bit_length (n : Z) : Z :=
  if n =? 0 then 0 else Z.log2 (Z.abs n) + 1.

Definition _count_righthand_zero_bits (number bits : Z) : Z :=
  if number =? 0 then bits
  else Z.min bits (bit_length (Z.land (Z.lnot number) (number - 1))).

(** [_prefix_from_ip_int]: [None] stands for its [ValueError]. *)
Definition _prefix_from_ip_int (ip_int : Z) : option Z :=
  let trailing_zeroes := _count_righthand_zero_bits ip_int _max_prefixlen in
  let p := _max_prefixlen - trailing_zeroes in
  let leading_ones := Z.shiftr ip_int trailing_zeroes in
  let all_ones := Z.shiftl 1 p - 1 in
  if negb (leading_ones =? all_ones) then None else Some p.

Definition _prefix_from_prefix_string (prefixlen_str : string) : outcome Z :=
  if negb (Str.isascii_isdigit prefixlen_str) then Raise NetmaskValueError
  else
    let p := Str.int prefixlen_str in
    if negb ((0 <=? p) && (p <=? _max_prefixlen)) then Raise NetmaskValueError
    else Ok p.

(** A dotted-quad netmask, or else hostmask, after the slash. *)
Definition _prefix_from_ip_string (ip_str : string) : outcome Z :=
  match _ip_int_from_string ip_str with
  | Raise _ => Raise NetmaskValueError
  | Ok ip_int =>
      match _prefix_from_ip_int ip_int with
      | Some p => Ok p
      | None =>
          match _prefix_from_ip_int (Z.lxor ip_int _ALL_ONES) with
          | Some p => Ok p
          | None => Raise NetmaskValueError
          end
      end
  end.

(** The second component of [_split_addr_prefix]: the text after the slash,
    or the integer 32 when there is no slash. *)
Inductive mask_arg :=
  | MaskInt (n : Z)
  | MaskStr (s : string).

(** [_make_netmask(arg)]: the netmask and the prefix length. *)
Definition _make_netmask (arg : mask_arg) : outcome (Z * Z) :=
  p ← match arg with
      | MaskInt n =>
          if negb ((0 <=? n) && (n <=? _max_prefixlen))
          then Raise NetmaskValueError else Ok n
      | MaskStr s =>
          match _prefix_from_prefix_string s with
          | Ok p => Ok p
          | Raise NetmaskValueError => _prefix_from_ip_string s
          | Raise e => Raise e
          end
      end;
  Ok (_ip_int_from_prefix p, p).

Definition _split_addr_prefix (address : string) : outcome (string * mask_arg) :=
  match Str.split "/" address with
  | [a] => Ok (a, MaskInt _max_prefixlen)
  | [a; m] => Ok (a, MaskStr m)
  | _ => Raise AddressValueError
  end.

(** [IPv4Network(address, strict=True)]. *)
Definition IPv4Network (address : string) : outcome IPv4Net :=
  '(addr, mask) ← _split_addr_prefix address;
  na ← IPv4Address addr;
  '(netmask, p) ← _make_netmask mask;
  if negb (Z.land na netmask =? na) then Raise ValueError
  else Ok (mkNet na p).

Definition netmask (n : IPv4Net) : Z := _ip_int_from_prefix (prefixlen n).
Definition hostmask (n : IPv4Net) : Z := Z.lxor (netmask n) _ALL_ONES.
Definition broadcast_address (n : IPv4Net) : Z :=
  Z.lor (network_address n) (hostmask n).

(** [list(range(start, stop, step))]. *)
Definition py_range (start stop step : Z) : outcome (list Z) :=
  if step =? 0 then Raise ValueError
  else
    let len :=
      if 0 <? step then (stop - start + step - 1) / step
      else (start - stop - step - 1) / (- step) in
    Ok (map (λ i, start + Z.of_nat i * step) (seq 0 (Z.to_nat len))).

(** [list(n.subnets(new_prefix=new_prefix))]: a generator that raises before
    its first element or not at all. A network of one address yields
    itself, whatever [new_prefix] is. *)
Definition subnets (n : IPv4Net) (new_prefix : Z) : outcome (list IPv4Net) :=
  if prefixlen n =? _max_prefixlen then Ok [n]
  else if new_prefix <? prefixlen n then Raise ValueError
  else
    let prefixlen_diff := new_prefix - prefixlen n in
    if prefixlen_diff <? 0 then Raise ValueError
    else
      let new_prefixlen := prefixlen n + prefixlen_diff in
      if _max_prefixlen <? new_prefixlen then Raise ValueError
      else
        let start := network_address n in
        let end_ := broadcast_address n + 1 in
        let step := Z.shiftr (hostmask n + 1) prefixlen_diff in
        addrs ← py_range start end_ step;
        Ok (map (λ new_addr, mkNet new_addr new_prefixlen) addrs).

(** [_string_from_ip_int]: the four bytes of [to_bytes(4, 'big')], dotted.
    Addresses of network objects are below [2 ^ 32]. *)
Definition _string_from_ip_int (ip_int : Z) : string :=
  Str.join "."
    (map (λ k, pretty (Z.land (Z.shiftr ip_int k) 255)) [24; 16; 8; 0]).

(** [n.exploded], for an IPv4 network [str(n)]. *)
Definition exploded (n : IPv4Net) : string :=
  _string_from_ip_int (network_address n) +:+ "/" +:+ pretty (prefixlen n).

End ipaddress.

(** ** The topology loader: [excel_to_cidr_dict] *)

(** The network info dict bound to every /24 key of a row. *)
Record info_dict := mkInfo {
  cidr : string;
  account_id : pyval;
  name : pyval;
  vpc_id : pyval;
  associate_with : pyval;
  propagate_to : list string
}.

Global Instance info_dict_eq_dec : EqDecision info_dict.
Proof. solve_decision. Defined.

(** The [.value] of the six cells of a sheet row, in the order of [header]. *)
Record sheet_row := mkRow {
  row_cidr : pyval;
  row_account_id : pyval;
  row_name : pyval;
  row_vpc_id : pyval;
  row_associate_with : pyval;
  row_propagate_to : pyval
}.

(** Line 87: ["10.123.4.0/24"] becomes ["10.123.4"]. *)
Definition block_key (cidr24_string : string) : string :=
  Str.join "." (take 3 (Str.split "." cidr24_string)).

(** Lines 66-69. *)
Definition parse_propagate_to (propagate_to_str : pyval) : list string :=
  match propagate_to_str with
  | VStr s => if truthy propagate_to_str
              then map Str.strip (Str.split "," s) else []
  | VNone => []
  end.

(** Line 59. *)
Definition normalize_cidr (c : string) : string := Str.remove " " c.

(** Lines 72-79. *)
Definition information (c : string) (row : sheet_row) : info_dict :=
  {| cidr := normalize_cidr c;
     account_id := row_account_id row;
     name := row_name row;
     vpc_id := row_vpc_id row;
     associate_with := row_associate_with row;
     propagate_to := parse_propagate_to (row_propagate_to row) |}.

(** Line 92. *)
Definition skip_message (info : info_dict) : string :=
  "Skipping " +:+ cidr info +:+ " (" +:+ py_str (name info)
  +:+ "), shorter than /24. ".

(** Lines 88-89 over the blocks of one row. *)
Definition bind_blocks (info : info_dict) (blocks : list string)
    (return_dict : gmap string info_dict) : gmap string info_dict :=
  foldl (λ d cidr24_string, <[block_key cidr24_string := info]> d)
    return_dict blocks.

Section loader.

(** [ip_network] tries [IPv6Network] on text that [IPv4Network] rejects
    with an [AddressValueError] or a [NetmaskValueError]. That leg is a
    parameter: the [exploded] forms of the blocks that
    [IPv6Network(address).subnets(new_prefix=24)] yields, or [None] when
    any step of it raises (always a [ValueError]). *)
Variable IPv6_blocks : string → option (list string).

(** [[b.exploded for b in ip_network(cidr).subnets(new_prefix=24)]]. *)
Definition subnets24_exploded (cidr : string) : outcome (list string) :=
  match ipaddress.IPv4Network cidr with
  | Ok n =>
      l ← ipaddress.subnets n 24; Ok (map ipaddress.exploded l)
  | Raise AddressValueError | Raise NetmaskValueError =>
      match IPv6_blocks cidr with
      | Some l => Ok l
      | None => Raise ValueError
      end
  | Raise e => Raise e
  end.

(** The body of the loop of lines 56-92 on the dict and the printed
    lines. *)
Definition load_row (show_warnings : bool) (row : sheet_row)
    (st : gmap string info_dict * list string)
  : outcome (gmap string info_dict * list string) :=
  let '(return_dict, out) := st in
  match row_cidr row with
  | VNone => Raise AttributeError
  | VStr c =>
      let info := information c row in
      match subnets24_exploded (cidr info) with
      | Ok blocks => Ok (bind_blocks info blocks return_dict, out)
      | Raise e =>
          if is_ValueError e
          then Ok (return_dict,
                   if show_warnings then out ++ [skip_message info] else out)
          else Raise e
      end
  end.

(** [sheet.iter_rows(min_row=2)] leaves the first row out. *)
Definition excel_to_cidr_dict (sheet : list sheet_row)
    (show_warnings : bool) : outcome (gmap string info_dict * list string) :=
  for_each (load_row show_warnings) (drop 1 sheet) (∅, []).

End loader.

(** ** [csv.DictReader] *)

Record DictReader := mkReader {
  reader : list (list string);
  _fieldnames : option (list string)
}.

(** The [fieldnames] property: reads the first row once. *)
Definition fieldnames (r : DictReader) : DictReader :=
  match _fieldnames r, reader r with
  | None, h :: rest => mkReader rest (Some h)
  | _, _ => r
  end.

(** [dict(zip(fieldnames, row))], then [restval = None] under the field
    names a short row leaves without a value. The entry under
    [restkey = None] of a long row is omitted: no string key reads it. *)
Definition row_dict (fields row : list string) : gmap string pyval :=
  let d := foldl (λ d kv, <[kv.1 := VStr kv.2]> d) ∅ (zip fields row) in
  foldl (λ d key, <[key := VNone]> d) d (drop (length row) fields).

(** [while row == []: row = next(self.reader)]. *)
Fixpoint skip_blank (rows : list (list string)) : list (list string) :=
  match rows with
  | [] :: rest => skip_blank rest
  | _ => rows
  end.

(** [__next__]: [None] is [StopIteration]. *)
Definition DictReader_next (r : DictReader)
  : option (gmap string pyval) * DictReader :=
  let r := fieldnames r in
  match skip_blank (reader r) with
  | [] => (None, mkReader [] (_fieldnames r))
  | row :: rest =>
      (Some (row_dict (default [] (_fieldnames r)) row),
       mkReader rest (_fieldnames r))
  end.

(** Everything a [for row in csvreader] loop receives. *)
Fixpoint drain (fields : list string) (rows : list (list string))
  : list (gmap string pyval) :=
  match rows with
  | [] => []
  | [] :: rest => drain fields rest
  | row :: rest => row_dict fields row :: drain fields rest
  end.

Definition DictReader_rows (r : DictReader) : list (gmap string pyval) :=
  let r := fieldnames r in
  drain (default [] (_fieldnames r)) (reader r).

(** ** The reachability check: the loop of [main] *)

(** The four counters and the two sets of [main]. *)
Record tally := mkTally {
  total_count : Z;
  failed_count : Z;
  success_count : Z;
  unmatched_count : Z;
  failed_strings : gset string;
  warning_strings : gset string
}.

(** The eight names that the [try] block of lines 137-146 assigns. [None]
    is a name still unbound; each keeps its value from one row to the
    next. *)
Record locals := mkLocals {
  src_association : option pyval;
  src_name : option pyval;
  src_vpc_id : option pyval;
  src_cidr : option string;
  dst_propagations : option (list string);
  dst_name : option pyval;
  dst_vpc_id : option pyval;
  dst_cidr : option string
}.

Definition tally0 : tally := mkTally 0 0 0 0 ∅ ∅.
Definition locals0 : locals :=
  mkLocals None None None None None None None None.

(** Reading a local name. *)
Definition load_name {A} (var : string) (v : option A) : outcome A :=
  match v with
  | Some a => Ok a
  | None => Raise (UnboundLocalError var)
  end.

(** [row[k]]. *)
Definition getitem (row : gmap string pyval) (k : string) : outcome pyval :=
  match row !! k with
  | Some v => Ok v
  | None => Raise (KeyError (VStr k))
  end.

(** [info[k]]: [None] is the [KeyError] of [k]. The keys of [info] are
    strings. *)
Definition info_getitem (info : gmap string info_dict) (k : pyval)
  : option info_dict :=
  match k with
  | VStr s => info !! s
  | VNone => None
  end.

(** [a in l] for a list of strings. *)
Definition py_in (a : pyval) (l : list string) : bool :=
  match a with
  | VStr s => bool_decide (s ∈ l)
  | VNone => false
  end.

(** Lines 138-141 and 143-146. *)
Definition assign_src (s : info_dict) (lv : locals) : locals :=
  mkLocals (Some (associate_with s)) (Some (name s)) (Some (vpc_id s))
    (Some (cidr s))
    (dst_propagations lv) (dst_name lv) (dst_vpc_id lv) (dst_cidr lv).

Definition assign_dst (d : info_dict) (lv : locals) : locals :=
  mkLocals (src_association lv) (src_name lv) (src_vpc_id lv) (src_cidr lv)
    (Some (propagate_to d)) (Some (name d)) (Some (vpc_id d)) (Some (cidr d)).

(** Line 150. *)
Definition warning_message (e : pyval) : string :=
  "Warning: no entry for " +:+ py_repr e.

(** Line 157. *)
Definition failed_message (s_cidr : string) (s_name s_vpc_id : pyval)
    (d_cidr : string) (d_name d_vpc_id : pyval) (s_association : pyval)
    (d_propagations : list string) : string :=
  s_cidr +:+ " (src name: " +:+ py_str s_name +:+ ", src id: "
  +:+ py_str s_vpc_id +:+ ") cannot communicate with " +:+ d_cidr
  +:+ " (dst name: " +:+ py_str d_name +:+ ", dst id: " +:+ py_str d_vpc_id
  +:+ ") , because the src association " +:+ py_str s_association
  +:+ " is not in the dest propagations " +:+ list_str d_propagations.

(** How lines 137-152 leave: by [continue], or on to line 155. *)
Inductive control :=
  | Continue (t : tally) (lv : locals)
  | FallThrough (t : tally) (lv : locals).

(** Lines 147-152: the [continue] belongs to [if show_warnings]. *)
Definition except_KeyError (show_warnings : bool) (e : pyval) (t : tally)
    (lv : locals) : control :=
  let t1 := mkTally (total_count t) (failed_count t) (success_count t)
              (unmatched_count t + 1) (failed_strings t) (warning_strings t) in
  if show_warnings
  then Continue
         (mkTally (total_count t1) (failed_count t1) (success_count t1)
            (unmatched_count t1) (failed_strings t1)
            ({[ warning_message e ]} ∪ warning_strings t1)) lv
  else FallThrough t1 lv.

(** Lines 137-152. *)
Definition try_lookup (show_warnings : bool) (info : gmap string info_dict)
    (src dst : pyval) (t : tally) (lv : locals) : control :=
  match info_getitem info src with
  | None => except_KeyError show_warnings src t lv
  | Some s =>
      let lv := assign_src s lv in
      match info_getitem info dst with
      | None => except_KeyError show_warnings dst t lv
      | Some d => FallThrough t (assign_dst d lv)
      end
  end.

(** Lines 155-160. *)
Definition check_reach (t : tally) (lv : locals) : outcome (tally * locals) :=
  a ← load_name "src_association" (src_association lv);
  ps ← load_name "dst_propagations" (dst_propagations lv);
  if negb (py_in a ps) then
    sc ← load_name "src_cidr" (src_cidr lv);
    sn ← load_name "src_name" (src_name lv);
    sv ← load_name "src_vpc_id" (src_vpc_id lv);
    dc ← load_name "dst_cidr" (dst_cidr lv);
    dn ← load_name "dst_name" (dst_name lv);
    dv ← load_name "dst_vpc_id" (dst_vpc_id lv);
    let result := failed_message sc sn sv dc dn dv a ps in
    Ok (mkTally (total_count t) (failed_count t + 1) (success_count t)
          (unmatched_count t) ({[ result ]} ∪ failed_strings t)
          (warning_strings t), lv)
  else
    Ok (mkTally (total_count t) (failed_count t) (success_count t + 1)
          (unmatched_count t) (failed_strings t) (warning_strings t), lv).

(** The loop body, lines 132-160. *)
Definition process_row (show_warnings : bool) (info : gmap string info_dict)
    (row : gmap string pyval) (st : tally * locals)
  : outcome (tally * locals) :=
  let '(t, lv) := st in
  let t := mkTally (total_count t + 1) (failed_count t) (success_count t)
             (unmatched_count t) (failed_strings t) (warning_strings t) in
  src ← getitem row "src";
  dst ← getitem row "dest";
  numpackets ← getitem row "numpackets";
  match try_lookup show_warnings info src dst t lv with
  | Continue t lv => Ok (t, lv)
  | FallThrough t lv => check_reach t lv
  end.

(** Lines 125-160 on the rows that [csv.reader] yields for the file. *)
Definition check_flows (show_warnings : bool) (info : gmap string info_dict)
    (csv_rows : list (list string)) : outcome (tally * locals) :=
  let csvreader := mkReader csv_rows None in
  let csvreader := (DictReader_next csvreader).2 in
  for_each (process_row show_warnings info) (DictReader_rows csvreader)
    (tally0, locals0).

(** ** The command line: [main] *)

Record arguments := mkArgs {
  xlsx : string;
  flowlogcsv : string;
  show_warnings_flag : bool
}.

(** What the file system answers: [os.path.isfile], the rows of the active
    sheet that [load_workbook] opens, the rows that [csv.reader] yields. *)
Record world := mkWorld {
  isfile : string → bool;
  load_workbook : string → outcome (list sheet_row);
  csv_reader : string → outcome (list (list string))
}.

(** What a run does, in order. [PrintSet] prints the members of a set,
    one per line, in the order of its iteration. *)
Inductive event :=
  | PrintLine (line : string)
  | PrintSet (lines : gset string)
  | OpenWorkbook (path : string)
  | OpenFile (path : string).

Inductive status :=
  | Returned
  | SysExit (code : Z)
  | Uncaught (e : exn).

(** Lines 162-178. *)
Definition print_summary (show_warnings : bool) (t : tally) : list event :=
  [PrintSet (failed_strings t)]
  ++ (if show_warnings then [PrintSet (warning_strings t)] else [])
  ++ [PrintLine "";
      PrintLine ("Total processed rows: " +:+ pretty (total_count t));
      PrintLine ("Unmatched rows: " +:+ pretty (unmatched_count t));
      PrintLine ("Successful rows: " +:+ pretty (success_count t));
      PrintLine ("Failed rows: " +:+ pretty (failed_count t));
      PrintLine ("Deduplicated failed rows: "
             +:+ pretty (Z.of_nat (size (failed_strings t))))]
  ++ (if (0 <? unmatched_count t) && negb show_warnings
      then [PrintLine (String "010"
              "Repeat the command with --show-warnings to see unmatched entries")]
      else []).

(** Lines 111-114: the first of the two paths that is not a file. *)
Definition first_missing (w : world) (a : arguments) : option string :=
  find (λ filename, negb (isfile w filename)) [xlsx a; flowlogcsv a].

Section main.

Variable IPv6_blocks : string → option (list string).

(** Lines 116-178. A run that ends in an uncaught exception keeps the
    events up to the call that raised; the lines that the loader printed
    before raising are not recorded. *)
Definition run_checks (w : world) (a : arguments) : list event * status :=
  let ev := [OpenWorkbook (xlsx a)] in
  match load_workbook w (xlsx a) with
  | Raise e => (ev, Uncaught e)
  | Ok sheet =>
      match excel_to_cidr_dict IPv6_blocks sheet (show_warnings_flag a) with
      | Raise e => (ev, Uncaught e)
      | Ok (info, out) =>
          let ev := ev ++ map PrintLine out ++ [OpenFile (flowlogcsv a)] in
          match csv_reader w (flowlogcsv a) with
          | Raise e => (ev, Uncaught e)
          | Ok csv_rows =>
              match check_flows (show_warnings_flag a) info csv_rows with
              | Raise e => (ev, Uncaught e)
              | Ok (t, _) =>
                  (ev ++ print_summary (show_warnings_flag a) t, Returned)
              end
          end
      end
  end.

Definition main (w : world) (a : arguments) : list event * status :=
  match first_missing w a with
  | Some filename =>
      ([PrintLine (filename +:+ " does not exist.")], SysExit 1)
  | None => run_checks w a
  end.

End main.

(** ** Notions of the specification *)

(** The first three octets of an address, dotted: the key of its /24. *)
Definition three_octets (b : Z) : string :=
  pretty (b `div` 2 ^ 24) +:+ "." +:+ pretty ((b `div` 2 ^ 16) `mod` 256)
  +:+ "." +:+ pretty ((b `div` 2 ^ 8) `mod` 256).

(** [b] is the first address of one of the 256-address blocks that the
    CIDR block [a/p], the addresses from [a] up to [a + 2 ^ (32 - p)],
    divides into. *)
Definition block24_of (a p b : Z) : Prop :=
  a ≤ b < a + 2 ^ (32 - p) ∧ b `mod` 256 = 0.

(** A character other than [sep]. *)
Definition other_than (sep c : ascii) : bool := negb (Ascii.eqb c sep).

(** No whitespace at either end. *)
Definition trimmed (s : string) : Prop :=
  (∀ c s', s = String c s' → Str.isspace c = false)
  ∧ (∀ s' c, s = s' +:+ String c "" → Str.isspace c = false).

Section row_keys.

Variable IPv6_blocks : string → option (list string).

(** The blocks that lines 83-84 go through for the cell text [c]: none
    when [ip_network] or [subnets] raises. *)
Definition row_blocks (c : string) : list string :=
  match subnets24_exploded IPv6_blocks (normalize_cidr c) with
  | Ok blocks => blocks
  | Raise _ => []
  end.

(** The keys that a sheet row expands to. *)
Definition row_keys (row : sheet_row) : list string :=
  match row_cidr row with
  | VStr c => map block_key (row_blocks c)
  | VNone => []
  end.

End row_keys.

(** ** Example inputs *)

(** An IPv6 leg that raises on every text. The examples are IPv4 text,
    which never reaches it. *)
Definition no_ipv6 : string → option (list string) := λ _, None.

Definition header_row : sheet_row :=
  mkRow (VStr "cidr") (VStr "account_id") (VStr "name") (VStr "vpc_id")
    (VStr "associate_with") (VStr "propagate_to").

Definition core_row : sheet_row :=
  mkRow (VStr "10.0.0.0/23") (VStr "111111111111") (VStr "Core")
    (VStr "vpc-1") (VStr "Isolated") (VStr "Infrastructure,Shared").

Definition spoke_row : sheet_row :=
  mkRow (VStr "10.0.5.0/24") (VStr "222222222222") (VStr "Spoke")
    (VStr "vpc-2") (VStr "Spoke") (VStr "Core").

Definition overlap_row : sheet_row :=
  mkRow (VStr "10.0.1.0/24") (VStr "333333333333") (VStr "Overlap")
    (VStr "vpc-3") (VStr "Shared") VNone.

Definition host_row : sheet_row :=
  mkRow (VStr "10.1.2.3/32") (VStr "444444444444") (VStr "Host")
    (VStr "vpc-4") (VStr "Isolated") VNone.

Definition core_info : info_dict :=
  mkInfo "10.0.0.0/23" (VStr "111111111111") (VStr "Core") (VStr "vpc-1")
    (VStr "Isolated") ["Infrastructure"; "Shared"].

Definition spoke_info : info_dict :=
  mkInfo "10.0.5.0/24" (VStr "222222222222") (VStr "Spoke") (VStr "vpc-2")
    (VStr "Spoke") ["Core"].

Definition shared_row : sheet_row :=
  mkRow (VStr "10.0.8.0/24") (VStr "555555555555") (VStr "Shared")
    (VStr "vpc-5") (VStr "Shared") (VStr "Isolated, Spoke").

Definition shared_info : info_dict :=
  mkInfo "10.0.8.0/24" (VStr "555555555555") (VStr "Shared") (VStr "vpc-5")
    (VStr "Shared") ["Isolated"; "Spoke"].

Definition example_sheet : list sheet_row :=
  [header_row; core_row; spoke_row; shared_row].

(** The index of [example_sheet]. *)
Definition example_info : gmap string info_dict :=
  <["10.0.8" := shared_info]>
    (<["10.0.5" := spoke_info]>
       (<["10.0.1" := core_info]> (<["10.0.0" := core_info]> ∅))).

(** Flow rows: the header of the Athena CSV and some of its lines.
    Core to Shared is allowed, Core to Spoke is not, 10.0.7 is in no
    declared block. *)
Definition flow_header : list string := ["src"; "dest"; "numpackets"].
Definition core_to_shared : list string := ["10.0.0"; "10.0.8"; "7"].
Definition core_to_spoke : list string := ["10.0.0"; "10.0.5"; "3"].
Definition core_to_spoke_again : list string := ["10.0.0"; "10.0.5"; "12"].
Definition stray_to_core : list string := ["10.0.7"; "10.0.0"; "4"].
Definition core_to_stray : list string := ["10.0.0"; "10.0.7"; "4"].

(** A row with another value in its cidr cell. *)
Definition with_cidr (v : pyval) (row : sheet_row) : sheet_row :=
  mkRow v (row_account_id row) (row_name row) (row_vpc_id row)
    (row_associate_with row) (row_propagate_to row).

(** A cidr cell with a tab before the slash. *)
Definition tab_cidr : string := "10.0.0.0" +:+ String "009" "/24".
Definition tab_row : sheet_row := with_cidr (VStr tab_cidr) core_row.

(** A cidr cell with blanks, and a propagate_to cell with blanks around
    its tags. *)
Definition blank_row : sheet_row :=
  mkRow (VStr " 10.215.96.0 /21") (VStr "666666666666") (VStr "Blank")
    (VStr "vpc-6") (VStr "Isolated") (VStr " Infrastructure , On premises ").

(** A directory with the workbook and the flow log of the examples. *)
Definition example_world : world :=
  mkWorld
    (λ path, String.eqb path "network.xlsx" || String.eqb path "athena.csv")
    (λ path, if String.eqb path "network.xlsx" then Ok example_sheet
             else Raise OSError)
    (λ path, if String.eqb path "athena.csv"
             then Ok [flow_header; core_to_shared; core_to_spoke]
             else Raise OSError).

(** ** The intended row accounting *)

(** Counters added and sets united. *)
Definition tally_add (x t : tally) : tally :=
  mkTally (total_count t + total_count x) (failed_count t + failed_count x)
    (success_count t + success_count x)
    (unmatched_count t + unmatched_count x)
    (failed_strings x ∪ failed_strings t)
    (warning_strings x ∪ warning_strings t).

(** What a row with the given src and dst adds when warnings are on. *)
Definition row_tally (info : gmap string info_dict) (src dst : pyval)
  : tally :=
  match info_getitem info src with
  | None => mkTally 1 0 0 1 ∅ {[ warning_message src ]}
  | Some s =>
      match info_getitem info dst with
      | None => mkTally 1 0 0 1 ∅ {[ warning_message dst ]}
      | Some d =>
          if py_in (associate_with s) (propagate_to d)
          then mkTally 1 0 1 0 ∅ ∅
          else mkTally 1 1 0 0
                 {[ failed_message (cidr s) (name s) (vpc_id s) (cidr d)
                      (name d) (vpc_id d) (associate_with s)
                      (propagate_to d) ]} ∅
      end
  end.

Definition dict_tally (info : gmap string info_dict)
    (row : gmap string pyval) : tally :=
  match row !! "src", row !! "dest" with
  | Some src, Some dst => row_tally info src dst
  | _, _ => tally0
  end.

(** A row dict with the three columns that the loop reads. *)
Definition has_columns (row : gmap string pyval) : Prop :=
  is_Some (row !! "src") ∧ is_Some (row !! "dest")
  ∧ is_Some (row !! "numpackets").

(** * Properties *)

(** An equation between closed terms, checked by evaluating both sides;
    the proof term holds no normal form. *)
Ltac vm_refl :=
  match goal with |- ?l = ?r => exact (@eq_refl _ r <: l = r) end.

(** What a run returns, as a witness. *)
Ltac returned run := constr:(match run with Ok x => x | Raise _ => (tally0, locals0) end).
(** ** The exception monad *)

Lemma bind_Ok {A B} (m : outcome A) (k : A → outcome B) (b : B) :
  m ≫= k = Ok b → ∃ a, m = Ok a ∧ k a = Ok b.
Proof. destruct m as [a|e]; [eauto | discriminate]. Qed.

(** ** Facts about [ipaddress] *)

Module ipaddress_facts.
Import ipaddress.

Lemma ALL_ONES_ones : _ALL_ONES = Z.ones 32.
Proof. reflexivity. Qed.

Lemma shiftr_ones (n p : Z) : 0 ≤ p ≤ n → Z.shiftr (Z.ones n) p = Z.ones (n - p).
Proof.
  intros Hp. apply Z.bits_inj'. intros i Hi.
  rewrite Z.shiftr_spec by lia.
  rewrite !Z.testbit_ones_nonneg by lia.
  destruct (Z.ltb_spec (i + p) n), (Z.ltb_spec i (n - p)); lia || reflexivity.
Qed.

Lemma hostmask_ones (a p : Z) :
  0 ≤ p ≤ 32 → hostmask (mkNet a p) = Z.ones (32 - p).
Proof.
  intros Hp. unfold hostmask, netmask, _ip_int_from_prefix. simpl.
  rewrite (Z.lxor_comm _ALL_ONES), Z.lxor_assoc, Z.lxor_nilpotent, Z.lxor_0_r.
  rewrite ALL_ONES_ones. by apply shiftr_ones.
Qed.

Lemma strict_no_host_bits (a p : Z) :
  0 ≤ p ≤ 32 → Z.land a (_ip_int_from_prefix p) = a →
  Z.land a (Z.ones (32 - p)) = 0.
Proof.
  intros Hp Ha. apply Z.bits_inj'. intros i Hi.
  rewrite Z.bits_0, Z.land_spec.
  assert (Hb := f_equal (λ x, Z.testbit x i) Ha). simpl in Hb.
  unfold _ip_int_from_prefix in Hb.
  rewrite Z.land_spec, Z.lxor_spec, ALL_ONES_ones, shiftr_ones in Hb by lia.
  rewrite !Z.testbit_ones_nonneg in Hb by lia.
  rewrite Z.testbit_ones_nonneg by lia.
  destruct (Z.testbit a i), (Z.ltb_spec i 32), (Z.ltb_spec i (32 - p));
    simpl in *; try reflexivity; try discriminate; lia.
Qed.

Lemma int_from_nonneg (s : string) (acc : Z) :
  Str.all_chars Str.is_decimal_digit s = true → 0 ≤ acc → 0 ≤ Str.int_from acc s.
Proof.
  revert acc. induction s as [|c s IH]; intros acc Hd Hacc; simpl in *; [done|].
  apply andb_prop in Hd as [Hc Hs]. apply IH; [done|].
  unfold Str.is_decimal_digit in Hc. lia.
Qed.

Lemma _parse_octet_range (o : string) (b : Z) :
  _parse_octet o = Ok b → 0 ≤ b ≤ 255.
Proof.
  unfold _parse_octet. destruct o as [|c0 o]; [done|].
  destruct (Str.isascii_isdigit (String c0 o)) eqn:Hd; [|done].
  intros H. repeat case_match; simplify_eq.
  all: split; [apply int_from_nonneg; [exact Hd | lia] | lia].
Qed.

Lemma parse_octets_range (octets : list string) (acc bs : list Z) :
  for_each (λ o acc, b ← _parse_octet o; Ok (acc ++ [b])) octets acc = Ok bs →
  Forall (λ b, 0 ≤ b ≤ 255) acc →
  Forall (λ b, 0 ≤ b ≤ 255) bs ∧ length bs = (length acc + length octets)%nat.
Proof.
  revert acc. induction octets as [|o octets IH]; intros acc H Hacc; simpl in H.
  - injection H as <-. split; [done | simpl; lia].
  - apply bind_Ok in H as (acc' & Ho & H).
    apply bind_Ok in Ho as (b & Hb & [= <-]).
    apply IH in H as [H1 H2].
    + split; [done|]. rewrite H2, length_app. simpl. lia.
    + apply Forall_app. split; [done|]. constructor; [|done].
      by eapply _parse_octet_range.
Qed.

Lemma _ip_int_from_string_range (s : string) (a : Z) :
  _ip_int_from_string s = Ok a → 0 ≤ a < 2 ^ 32.
Proof.
  unfold _ip_int_from_string. destruct s as [|c s]; [done|].
  case_match; [done|].
  destruct (for_each _ _ _) as [bs|] eqn:Hbs; [|done].
  intros [= <-]. apply parse_octets_range in Hbs as [Hr Hl]; [|done].
  destruct (Str.split "." (String c s)) as [|? [|? [|? [|? [|]]]]]; try done.
  destruct bs as [|b0 [|b1 [|b2 [|b3 [|]]]]]; try done.
  repeat match goal with H : Forall _ (_ :: _) |- _ => apply Forall_cons in H as [? H] end.
  unfold from_bytes_big. simpl. lia.
Qed.

Lemma bit_length_nonneg (n : Z) : 0 ≤ bit_length n.
Proof. unfold bit_length. case_match; [done|]. pose proof (Z.log2_nonneg (Z.abs n)). lia. Qed.

Lemma _prefix_from_ip_int_range (i p : Z) :
  _prefix_from_ip_int i = Some p → 0 ≤ p ≤ 32.
Proof.
  unfold _prefix_from_ip_int, _count_righthand_zero_bits, _max_prefixlen.
  pose proof (bit_length_nonneg (Z.land (Z.lnot i) (i - 1))).
  repeat case_match; try done; intros [= <-]; lia.
Qed.

Lemma _make_netmask_range (arg : mask_arg) (m p : Z) :
  _make_netmask arg = Ok (m, p) → 0 ≤ p ≤ 32 ∧ m = _ip_int_from_prefix p.
Proof.
  unfold _make_netmask. intros H. apply bind_Ok in H as (q & Hq & [= <- <-]).
  split; [|done]. destruct arg as [n|s].
  - unfold _max_prefixlen in Hq. case_match; [done|]. injection Hq as <-. lia.
  - unfold _prefix_from_prefix_string, _prefix_from_ip_string, _max_prefixlen in Hq.
    repeat case_match; simplify_eq; try lia;
      by eapply _prefix_from_ip_int_range.
Qed.

(** What [IPv4Network] guarantees of the network it returns. *)
Lemma IPv4Network_inv (address : string) (n : IPv4Net) :
  IPv4Network address = Ok n →
  0 ≤ network_address n < 2 ^ 32 ∧ 0 ≤ prefixlen n ≤ 32
  ∧ network_address n `mod` 2 ^ (32 - prefixlen n) = 0.
Proof.
  unfold IPv4Network. intros H.
  apply bind_Ok in H as ([addr mask] & _ & H).
  apply bind_Ok in H as (na & Hna & H).
  apply bind_Ok in H as ([m p] & Hm & H).
  apply _make_netmask_range in Hm as [Hp ->].
  destruct (Z.eqb_spec (Z.land na (_ip_int_from_prefix p)) na) as [Hs|]; [|done].
  injection H as <-. simpl.
  unfold IPv4Address in Hna. case_match; [done|].
  apply _ip_int_from_string_range in Hna.
  split_and!; try lia.
  rewrite <- Z.land_ones by lia. by apply strict_no_host_bits.
Qed.

Lemma subnets_to_24 (a p : Z) :
  0 ≤ p ≤ 24 → a `mod` 2 ^ (32 - p) = 0 →
  subnets (mkNet a p) 24
  = Ok (map (λ b, mkNet b 24)
          (map (λ i, a + Z.of_nat i * 256) (seq 0 (Z.to_nat (2 ^ (24 - p)))))).
Proof.
  intros Hp Ha. unfold subnets, broadcast_address.
  rewrite hostmask_ones by lia. simpl. unfold _max_prefixlen.
  destruct (Z.eqb_spec p 32); [lia|].
  destruct (Z.ltb_spec 24 p); [lia|].
  destruct (Z.ltb_spec (24 - p) 0); [lia|].
  replace (p + (24 - p)) with 24 by lia. simpl.
  assert (Hpow : 2 ^ (32 - p) = 256 * 2 ^ (24 - p)).
  { replace (32 - p) with (8 + (24 - p)) by lia. by rewrite Z.pow_add_r by lia. }
  assert (0 < 2 ^ (24 - p)) by (apply Z.pow_pos_nonneg; lia).
  rewrite <- Z.add_nocarry_lor by (rewrite Z.land_ones by lia; done).
  rewrite Z.ones_equiv, Z.shiftr_div_pow2 by lia.
  replace (Z.pred (2 ^ (32 - p)) + 1) with (2 ^ (32 - p)) by lia.
  replace (2 ^ (32 - p) `div` 2 ^ (24 - p)) with 256
    by (rewrite Hpow, Z.div_mul by lia; done).
  unfold py_range. simpl.
  replace ((a + Z.pred (2 ^ (32 - p)) + 1 - a + 256 - 1) `div` 256)
    with (2 ^ (24 - p)); [done|].
  rewrite Hpow. apply Z.div_unique with 255; lia.
Qed.
End ipaddress_facts.
(** ** Facts about the [str] methods *)

Module Str_facts.

Lemma str_app_nil_l (s : string) : "" +:+ s = s.
Proof. reflexivity. Qed.

Lemma str_app_cons (c : ascii) (s t : string) : String c s +:+ t = String c (s +:+ t).
Proof. reflexivity. Qed.

Lemma str_app_assoc (s t u : string) : (s +:+ t) +:+ u = s +:+ (t +:+ u).
Proof. induction s as [|c s IH]; [done|]. by rewrite !str_app_cons, IH. Qed.

Lemma all_chars_app (p : ascii → bool) (s1 s2 : string) :
  Str.all_chars p (s1 +:+ s2) = Str.all_chars p s1 && Str.all_chars p s2.
Proof.
  induction s1 as [|c s1 IH]; [done|].
  rewrite str_app_cons. simpl. by rewrite IH, andb_assoc.
Qed.

Lemma all_chars_impl (p q : ascii → bool) (s : string) :
  (∀ c, p c = true → q c = true) →
  Str.all_chars p s = true → Str.all_chars q s = true.
Proof.
  intros Hpq. induction s as [|c s IH]; simpl; [done|].
  intros [Hc Hs]%andb_prop. rewrite (Hpq _ Hc). by apply IH.
Qed.

Lemma split_fields_whole (sep : ascii) (w : string) :
  Str.all_chars (other_than sep) w = true → Str.split_fields sep w = (w, []).
Proof.
  induction w as [|c w IH]; simpl; [done|].
  intros [Hc Hw]%andb_prop. rewrite (IH Hw).
  unfold other_than in Hc. by destruct (Ascii.eqb c sep).
Qed.

Lemma split_whole (sep : ascii) (w : string) :
  Str.all_chars (other_than sep) w = true → Str.split sep w = [w].
Proof. intros H. unfold Str.split. by rewrite split_fields_whole. Qed.

Lemma split_app_sep (sep : ascii) (w rest : string) :
  Str.all_chars (other_than sep) w = true →
  Str.split sep (w +:+ String sep rest) = w :: Str.split sep rest.
Proof.
  unfold Str.split. induction w as [|c w IH]; intros Hw.
  - rewrite str_app_nil_l. simpl. rewrite Ascii.eqb_refl.
    by destruct (Str.split_fields sep rest).
  - simpl in Hw. apply andb_prop in Hw as [Hc Hw]. specialize (IH Hw).
    rewrite str_app_cons. simpl.
    destruct (Str.split_fields sep (w +:+ String sep rest)) as [w' ws'].
    unfold other_than in Hc. destruct (Ascii.eqb c sep); [done|].
    destruct (Str.split_fields sep rest). by simplify_eq.
Qed.

Lemma split_join_sep (sep : ascii) (w rest : string) :
  Str.all_chars (other_than sep) w = true →
  Str.split sep (w +:+ String sep "" +:+ rest) = w :: Str.split sep rest.
Proof. apply split_app_sep. Qed.

Lemma digit_other_than (sep : ascii) :
  Str.is_decimal_digit sep = false →
  ∀ c, Str.is_decimal_digit c = true → other_than sep c = true.
Proof.
  intros Hsep c Hc. unfold other_than.
  destruct (Ascii.eqb_spec c sep) as [->|]; [congruence | done].
Qed.

Lemma pretty_small_digits (x : Z) :
  0 ≤ x < 256 → Str.all_chars Str.is_decimal_digit (pretty x) = true.
Proof.
  intros Hx.
  assert (H : forallb (λ i, Str.all_chars Str.is_decimal_digit
                              (pretty (Z.of_nat i))) (seq 0 256) = true)
    by (vm_compute; reflexivity).
  rewrite forallb_forall in H. specialize (H (Z.to_nat x)).
  rewrite Z2Nat.id in H by lia. apply H, in_seq. lia.
Qed.

End Str_facts.

(** ** The key of a block *)

Module block_facts.
Import ipaddress Str_facts.

Lemma block_key_exploded (b q : Z) :
  0 ≤ b < 2 ^ 32 → 0 ≤ q ≤ 32 →
  block_key (exploded (mkNet b q)) = three_octets b.
Proof.
  intros Hb Hq. unfold block_key, exploded, _string_from_ip_int, three_octets.
  cbn [map network_address prefixlen Str.join].
  change 255 with (Z.ones 8). rewrite !Z.land_ones, !Z.shiftr_div_pow2 by lia.
  change (2 ^ 0) with 1. change (2 ^ 8) with 256. rewrite Z.div_1_r.
  rewrite (Z.mod_small (b `div` 2 ^ 24)) by
    (split; [apply Z.div_pos; lia | apply Z.div_lt_upper_bound; lia]).
  set (o1 := b `div` 2 ^ 24). set (o2 := (b `div` 2 ^ 16) `mod` 256).
  set (o3 := (b `div` 2 ^ 8) `mod` 256). set (o4 := b `mod` 256).
  assert (Ho1 : 0 ≤ o1 < 256).
  { subst o1. split; [apply Z.div_pos; lia | apply Z.div_lt_upper_bound; lia]. }
  assert (Ho2 : 0 ≤ o2 < 256) by (subst o2; apply Z.mod_pos_bound; lia).
  assert (Ho3 : 0 ≤ o3 < 256) by (subst o3; apply Z.mod_pos_bound; lia).
  assert (Hnd : ∀ x, 0 ≤ x < 256 →
            Str.all_chars (other_than ".") (pretty x) = true).
  { intros x Hx. eapply all_chars_impl; [|by apply pretty_small_digits].
    by apply digit_other_than. }
  rewrite !str_app_assoc.
  rewrite !split_join_sep by auto.
  reflexivity.
Qed.
End block_facts.

(** ** The loader, row by row *)

Module loader_facts.
Import ipaddress ipaddress_facts Str_facts block_facts.

Lemma elem_of_map {A B} (f : A → B) (l : list A) (x : B) :
  x ∈ map f l ↔ ∃ y, x = f y ∧ y ∈ l.
Proof.
  rewrite list_elem_of_In, in_map_iff.
  by setoid_rewrite list_elem_of_In; split; intros (y & ? & ?); exists y.
Qed.

Lemma bind_blocks_lookup (info : info_dict) (blocks : list string)
    (d : gmap string info_dict) (k : string) :
  bind_blocks info blocks d !! k
  = if decide (k ∈ map block_key blocks) then Some info else d !! k.
Proof.
  unfold bind_blocks. revert d.
  induction blocks as [|b blocks IH]; intros d; cbn [foldl map].
  - rewrite decide_False; [done|]. by inversion 1.
  - rewrite IH. destruct (decide (k = block_key b)) as [->|Hne].
    + rewrite lookup_insert_eq.
      rewrite (decide_True (P := _ ∈ _ :: _)) by left. by case_decide.
    + rewrite lookup_insert_ne by done.
      repeat case_decide; try done.
      * exfalso. apply H0. by right.
      * exfalso. by inversion H0.
Qed.

(** The start addresses that [subnets] steps through are the 256-aligned
    addresses of the block. *)
Lemma block24_of_range (a p b : Z) :
  0 ≤ p ≤ 24 → a `mod` 2 ^ (32 - p) = 0 →
  block24_of a p b
  ↔ b ∈ map (λ i, a + Z.of_nat i * 256) (seq 0 (Z.to_nat (2 ^ (24 - p)))).
Proof.
  intros Hp Ha. unfold block24_of.
  assert (Hpow : 2 ^ (32 - p) = 256 * 2 ^ (24 - p)).
  { replace (32 - p) with (8 + (24 - p)) by lia. by rewrite Z.pow_add_r by lia. }
  assert (0 < 2 ^ (24 - p)) by (apply Z.pow_pos_nonneg; lia).
  apply Z.mod_divide in Ha as [m Hm]; [|lia]. rewrite Hpow in Hm |- *.
  rewrite elem_of_map. setoid_rewrite list_elem_of_In.
  setoid_rewrite in_seq. split.
  - intros [Hb Hal]. apply Z.mod_divide in Hal as [q Hq]; [|lia].
    exists (Z.to_nat (q - m * 2 ^ (24 - p))). split; nia.
  - intros (i & -> & Hi). split; [nia|].
    apply Z.mod_divide; [lia|]. exists (m * 2 ^ (24 - p) + Z.of_nat i). nia.
Qed.

Lemma block_top (a p : Z) :
  0 ≤ a < 2 ^ 32 → 0 ≤ p ≤ 32 → a `mod` 2 ^ (32 - p) = 0 →
  a + 2 ^ (32 - p) ≤ 2 ^ 32.
Proof.
  intros Ha Hp Hal.
  assert (HP : 0 < 2 ^ (32 - p)) by (apply Z.pow_pos_nonneg; lia).
  assert (HQ : 0 < 2 ^ p) by (apply Z.pow_pos_nonneg; lia).
  assert (Hpow : 2 ^ 32 = 2 ^ p * 2 ^ (32 - p)).
  { rewrite <- Z.pow_add_r by lia. f_equal. lia. }
  apply Z.mod_divide in Hal as [m Hm]; [|lia].
  destruct Ha as [_ Ha]. rewrite Hpow, Hm in Ha |- *.
  set (P := 2 ^ (32 - p)) in *. set (Q := 2 ^ p) in *. clearbody P Q.
  assert (m < Q) by (apply Z.mul_lt_mono_pos_r with P; lia).
  nia.
Qed.

(** The blocks cover the addresses of [a/p], each address in one block. *)
Lemma block24_of_partition (a p x : Z) :
  0 ≤ p ≤ 24 → a `mod` 2 ^ (32 - p) = 0 →
  (a ≤ x < a + 2 ^ (32 - p)
   ↔ ∃ b, block24_of a p b ∧ b ≤ x < b + 256)
  ∧ (∀ b b', block24_of a p b → block24_of a p b' →
       b ≤ x < b + 256 → b' ≤ x < b' + 256 → b = b').
Proof.
  intros Hp Ha. unfold block24_of.
  assert (Hpow : 2 ^ (32 - p) = 256 * 2 ^ (24 - p)).
  { replace (32 - p) with (8 + (24 - p)) by lia. by rewrite Z.pow_add_r by lia. }
  assert (0 < 2 ^ (24 - p)) by (apply Z.pow_pos_nonneg; lia).
  apply Z.mod_divide in Ha as [m Hm]; [|lia]. rewrite Hpow in Hm |- *.
  set (K := 2 ^ (24 - p)) in *. clearbody K.
  split; [split|].
  - intros Hx. exists (256 * (x `div` 256)).
    pose proof (Z.div_mod x 256 ltac:(lia)).
    pose proof (Z.mod_pos_bound x 256 ltac:(lia)).
    split_and!; try lia.
    + rewrite Z.mul_comm, Z.mod_mul; lia.
  - intros (b & [Hb Hal] & Hx). apply Z.mod_divide in Hal as [q Hq]; [|lia]. nia.
  - intros b b' [_ Hb] [_ Hb'] Hx Hx'.
    apply Z.mod_divide in Hb as [q Hq]; [|lia].
    apply Z.mod_divide in Hb' as [q' Hq']; [|lia]. lia.
Qed.

Section with_ipv6.

Variable IPv6_blocks : string → option (list string).

(** The blocks of a row that parses to an IPv4 network of prefix at most
    24. *)
Lemma subnets24_exploded_le24 (cidr : string) (n : IPv4Net) :
  IPv4Network cidr = Ok n → prefixlen n ≤ 24 →
  subnets24_exploded IPv6_blocks cidr
  = Ok (map (λ i, exploded (mkNet (network_address n + Z.of_nat i * 256) 24))
          (seq 0 (Z.to_nat (2 ^ (24 - prefixlen n))))).
Proof.
  intros Hn Hp. unfold subnets24_exploded. rewrite Hn.
  apply IPv4Network_inv in Hn as (Ha & Hp' & Hal).
  destruct n as [a p]; simpl in *.
  rewrite subnets_to_24 by (done || lia). simpl.
  by rewrite !map_map.
Qed.

Lemma keys_le24 (cidr : string) (n : IPv4Net) (k : string) :
  IPv4Network cidr = Ok n → prefixlen n ≤ 24 →
  k ∈ map block_key
        (map (λ i, exploded (mkNet (network_address n + Z.of_nat i * 256) 24))
           (seq 0 (Z.to_nat (2 ^ (24 - prefixlen n)))))
  ↔ ∃ b, block24_of (network_address n) (prefixlen n) b ∧ k = three_octets b.
Proof.
  intros Hn Hp. apply IPv4Network_inv in Hn as (Ha & Hp' & Hal).
  destruct n as [a p]; simpl in *.
  assert (Hpow : 2 ^ (32 - p) = 256 * 2 ^ (24 - p)).
  { replace (32 - p) with (8 + (24 - p)) by lia.
    by rewrite Z.pow_add_r by lia. }
  rewrite map_map, elem_of_map. split.
  - intros (i & -> & Hi). exists (a + Z.of_nat i * 256).
    assert (Hb : block24_of a p (a + Z.of_nat i * 256)).
    { apply block24_of_range; [lia | done|].
      apply elem_of_map. by exists i. }
    split; [done|]. apply block_key_exploded; [|lia].
    destruct Hb as [Hb _]. pose proof (block_top a p Ha Hp' Hal). lia.
  - intros (b & Hb & ->).
    pose proof Hb as [Hr _].
    apply block24_of_range in Hb as (i & -> & Hi)%elem_of_map;
      [|lia|done].
    exists i. split; [|done]. symmetry.
    pose proof (block_top a p Ha Hp' Hal). apply block_key_exploded; lia.
Qed.

End with_ipv6.
End loader_facts.

Module raise_facts.
Import ipaddress.

Lemma bind_Raise {A B} (m : outcome A) (k : A → outcome B) (e : exn) :
  m ≫= k = Raise e → m = Raise e ∨ ∃ a, m = Ok a ∧ k a = Raise e.
Proof. destruct m as [a|e']; intros H; [right; eauto | left; by injection H as ->]. Qed.

Lemma _ip_int_from_string_raise (s : string) (e : exn) :
  _ip_int_from_string s = Raise e → e = AddressValueError.
Proof. unfold _ip_int_from_string. repeat case_match; congruence. Qed.

Lemma _make_netmask_raise (arg : mask_arg) (e : exn) :
  _make_netmask arg = Raise e → e = NetmaskValueError.
Proof.
  unfold _make_netmask. intros [H|(p & _ & H)]%bind_Raise; [|done].
  destruct arg as [n|s].
  - case_match; congruence.
  - unfold _prefix_from_prefix_string, _prefix_from_ip_string in H.
    repeat case_match; congruence.
Qed.

(** Whatever [IPv4Network] raises, [except ValueError] catches. *)
Lemma IPv4Network_raise (address : string) (e : exn) :
  IPv4Network address = Raise e → is_ValueError e = true.
Proof.
  unfold IPv4Network. intros [H|([addr mask] & _ & H)]%bind_Raise.
  { unfold _split_addr_prefix in H. repeat case_match; by simplify_eq. }
  apply bind_Raise in H as [H|(na & _ & H)].
  { unfold IPv4Address in H. case_match; [by simplify_eq|].
    by apply _ip_int_from_string_raise in H as ->. }
  apply bind_Raise in H as [H|([m p] & _ & H)].
  { by apply _make_netmask_raise in H as ->. }
  case_match; by simplify_eq.
Qed.

Lemma subnets_raise (n : IPv4Net) (q : Z) (e : exn) :
  subnets n q = Raise e → e = ValueError.
Proof.
  unfold subnets, py_range. intros H.
  repeat case_match; simplify_eq; try done.
  all: apply bind_Raise in H as [H|(? & ? & H)]; repeat case_match; by simplify_eq.
Qed.

Lemma subnets24_exploded_raise (v6 : string → option (list string))
    (cidr : string) (e : exn) :
  subnets24_exploded v6 cidr = Raise e → is_ValueError e = true.
Proof.
  unfold subnets24_exploded.
  destruct (IPv4Network cidr) as [n|e'] eqn:Hn.
  - intros [H|(l & _ & H)]%bind_Raise; [|done].
    by apply subnets_raise in H as ->.
  - apply IPv4Network_raise in Hn.
    destruct e'; try done; repeat case_match; by intros [= <-].
Qed.

End raise_facts.

(** ** The loader, over the sheet *)

Module sheet_facts.
Import ipaddress ipaddress_facts loader_facts raise_facts.

Lemma for_each_app {A S} (body : A → S → outcome S) (xs ys : list A) (st : S) :
  for_each body (xs ++ ys) st = for_each body xs st ≫= for_each body ys.
Proof.
  revert st. induction xs as [|x xs IH]; intros st; simpl; [done|].
  destruct (body x st) as [st'|e]; simpl; [apply IH | done].
Qed.

Section with_ipv6.

Variable IPv6_blocks : string → option (list string).

(** A row whose cidr cell is text never stops the loader: its blocks are
    bound, or it is skipped. *)
Lemma load_row_text (show_warnings : bool) (row : sheet_row) (c : string)
    (d : gmap string info_dict) (out : list string) :
  row_cidr row = VStr c →
  ∃ out',
    load_row IPv6_blocks show_warnings row (d, out)
    = Ok (bind_blocks (information c row) (row_blocks IPv6_blocks c) d, out').
Proof.
  intros Hc. unfold load_row, row_blocks. rewrite Hc.
  change (cidr (information c row)) with (normalize_cidr c).
  destruct (subnets24_exploded IPv6_blocks (normalize_cidr c)) as [bs|e] eqn:Hb.
  - by eexists.
  - apply subnets24_exploded_raise in Hb as ->. by eexists.
Qed.

Lemma load_row_lookup (show_warnings : bool) (row : sheet_row) (c : string)
    (d d' : gmap string info_dict) (out out' : list string) (k : string) :
  row_cidr row = VStr c →
  load_row IPv6_blocks show_warnings row (d, out) = Ok (d', out') →
  d' !! k = if decide (k ∈ row_keys IPv6_blocks row)
            then Some (information c row) else d !! k.
Proof.
  intros Hc Hl.
  destruct (load_row_text show_warnings row c d out Hc) as [o Ho].
  rewrite Ho in Hl. injection Hl as <- <-.
  unfold row_keys. rewrite Hc. apply bind_blocks_lookup.
Qed.

(** Rows with text in the cidr cell: the loader returns, and a key that
    none of them expands to keeps its binding. *)
Lemma loader_rows (show_warnings : bool) (rows : list sheet_row)
    (d : gmap string info_dict) (out : list string) :
  Forall (λ r, row_cidr r ≠ VNone) rows →
  ∃ d' out',
    for_each (load_row IPv6_blocks show_warnings) rows (d, out)
    = Ok (d', out')
    ∧ ∀ k, (∀ r, r ∈ rows → k ∉ row_keys IPv6_blocks r) → d' !! k = d !! k.
Proof.
  revert d out. induction rows as [|r rows IH]; intros d out Hrows.
  - exists d, out. by split.
  - apply Forall_cons in Hrows as [Hr Hrows].
    destruct (row_cidr r) as [|c] eqn:Hc; [done|].
    destruct (load_row_text show_warnings r c d out Hc) as [o Ho].
    destruct (IH (bind_blocks (information c r) (row_blocks IPv6_blocks c) d)
                o Hrows) as (d' & out' & Hrun & Hkeep).
    exists d', out'. split.
    + cbn [for_each]. rewrite Ho. exact Hrun.
    + intros k Hk. rewrite Hkeep by (intros r' Hr'; apply Hk; by right).
      rewrite bind_blocks_lookup.
      rewrite decide_False; [done|].
      specialize (Hk r (list_elem_of_here _ _)).
      unfold row_keys in Hk. by rewrite Hc in Hk.
Qed.

End with_ipv6.
End sheet_facts.

(** * Properties of the topology loader *)

Import ipaddress ipaddress_facts loader_facts raise_facts sheet_facts.

Lemma example_info_loaded (v6 : string → option (list string)) (show : bool) :
  excel_to_cidr_dict v6 example_sheet show = Ok (example_info, []).
Proof. vm_compute. reflexivity. Qed.

(** C4: a row whose CIDR parses to an IPv4 network [a/p] with [p ≤ 24]
    binds exactly the keys of the 256-address blocks that [a/p] divides
    into: the keys the row expands to are the three-octet prefixes of the
    256-aligned addresses of the block, every address of the block lies in
    exactly one such /24, each key is bound to a record with the row's
    cidr (as normalized on line 59), account_id, name, vpc_id, association
    and propagation list, and no other key of the index changes. *)
Theorem C4_blocks_of_declared_cidr (v6 : string → option (list string))
    (show_warnings : bool) (row : sheet_row) (c : string) (n : IPv4Net)
    (d : gmap string info_dict) (out : list string) :
  row_cidr row = VStr c →
  IPv4Network (normalize_cidr c) = Ok n →
  prefixlen n ≤ 24 →
  ∃ d',
    load_row v6 show_warnings row (d, out) = Ok (d', out)
    ∧ (∀ k, k ∈ row_keys v6 row
            ↔ ∃ b, block24_of (network_address n) (prefixlen n) b
                   ∧ k = three_octets b)
    ∧ (∀ x, network_address n ≤ x < network_address n + 2 ^ (32 - prefixlen n)
            ↔ ∃ b, block24_of (network_address n) (prefixlen n) b
                   ∧ b ≤ x < b + 256)
    ∧ (∀ x b b',
         block24_of (network_address n) (prefixlen n) b →
         block24_of (network_address n) (prefixlen n) b' →
         b ≤ x < b + 256 → b' ≤ x < b' + 256 → b = b')
    ∧ (∀ b, block24_of (network_address n) (prefixlen n) b →
         ∃ info,
           d' !! three_octets b = Some info
           ∧ cidr info = normalize_cidr c
           ∧ account_id info = row_account_id row
           ∧ name info = row_name row
           ∧ vpc_id info = row_vpc_id row
           ∧ associate_with info = row_associate_with row
           ∧ propagate_to info = parse_propagate_to (row_propagate_to row))
    ∧ (∀ k, k ∉ row_keys v6 row → d' !! k = d !! k).
Proof.
  intros Hc Hn Hp.
  pose proof (IPv4Network_inv _ _ Hn) as (Ha & Hp' & Hal).
  assert (Hkeys : ∀ k, k ∈ row_keys v6 row
            ↔ ∃ b, block24_of (network_address n) (prefixlen n) b
                   ∧ k = three_octets b).
  { intros k. unfold row_keys, row_blocks. rewrite Hc.
    rewrite (subnets24_exploded_le24 v6 _ n Hn Hp).
    by apply (keys_le24 (normalize_cidr c)). }
  assert (Hrun : load_row v6 show_warnings row (d, out)
                 = Ok (bind_blocks (information c row) (row_blocks v6 c) d, out)).
  { unfold load_row, row_blocks. rewrite Hc.
    change (cidr (information c row)) with (normalize_cidr c).
    by rewrite (subnets24_exploded_le24 v6 _ n Hn Hp). }
  eexists. split; [exact Hrun|].
  destruct (block24_of_partition (network_address n) (prefixlen n) 0)
    as [_ _]; [lia | done |].
  split_and!.
  - exact Hkeys.
  - intros x. by apply block24_of_partition; [lia|].
  - intros x. by apply block24_of_partition; [lia|].
  - intros b Hb. exists (information c row). split; [|done].
    rewrite bind_blocks_lookup. rewrite decide_True; [done|].
    change (map block_key (row_blocks v6 c)) with
      (match VStr c with VStr c => map block_key (row_blocks v6 c) | VNone => [] end).
    rewrite <- Hc. apply Hkeys. by exists b.
  - intros k Hk. rewrite bind_blocks_lookup. rewrite decide_False; [done|].
    unfold row_keys in Hk. by rewrite Hc in Hk.
Qed.

Lemma C4_witness :
  row_cidr core_row = VStr "10.0.0.0/23"
  ∧ IPv4Network (normalize_cidr "10.0.0.0/23") = Ok (mkNet 167772160 23)
  ∧ prefixlen (mkNet 167772160 23) ≤ 24
  ∧ ∃ d', load_row no_ipv6 true core_row (∅, []) = Ok (d', [])
          ∧ ∃ info, d' !! three_octets 167772416 = Some info
                    ∧ cidr info = "10.0.0.0/23".
Proof.
  assert (H1 : row_cidr core_row = VStr "10.0.0.0/23") by reflexivity.
  assert (H2 : IPv4Network (normalize_cidr "10.0.0.0/23")
               = Ok (mkNet 167772160 23)) by (vm_compute; reflexivity).
  assert (H3 : prefixlen (mkNet 167772160 23) ≤ 24) by (simpl; lia).
  split_and!; [done..|].
  destruct (C4_blocks_of_declared_cidr no_ipv6 true core_row "10.0.0.0/23"
              (mkNet 167772160 23) ∅ [] H1 H2 H3)
    as (d' & Hrun & _ & _ & _ & Hbound & _).
  exists d'. split; [exact Hrun|].
  destruct (Hbound 167772416) as (info & Hi & Hcidr & _).
  { split; [simpl; lia | reflexivity]. }
  exists info. split; [exact Hi | exact Hcidr].
Defined.

(** A CIDR of prefix 25 to 31 binds nothing and, with warnings on, prints
    one line with its cidr and name; the loader goes on. *)
Lemma load_row_finer_than_24 (v6 : string → option (list string))
    (show_warnings : bool) (row : sheet_row) (c : string) (n : IPv4Net)
    (d : gmap string info_dict) (out : list string) :
  row_cidr row = VStr c →
  IPv4Network (normalize_cidr c) = Ok n →
  24 < prefixlen n < 32 →
  load_row v6 show_warnings row (d, out)
  = Ok (d, if show_warnings
           then out ++ ["Skipping " +:+ normalize_cidr c +:+ " ("
                        +:+ py_str (row_name row) +:+ "), shorter than /24. "]
           else out).
Proof.
  intros Hc Hn Hp. unfold load_row. rewrite Hc.
  change (cidr (information c row)) with (normalize_cidr c).
  unfold subnets24_exploded. rewrite Hn. unfold subnets, _max_prefixlen.
  destruct (Z.eqb_spec (prefixlen n) 32); [lia|].
  destruct (Z.ltb_spec 24 (prefixlen n)); [|lia]. reflexivity.
Qed.

(** C5 at a prefix of 32: [subnets] yields the one-address network itself
    instead of raising, so the row binds the key of the /24 around it and
    no diagnostic is printed, with or without warnings. *)
Theorem C5_prefix_32_binds_a_key (v6 : string → option (list string))
    (show_warnings : bool) :
  IPv4Network (normalize_cidr "10.1.2.3/32") = Ok (mkNet 167838211 32)
  ∧ load_row v6 show_warnings host_row (∅, [])
    = Ok ({[ "10.1.2" := information "10.1.2.3/32" host_row ]}, []).
Proof. split; vm_compute; reflexivity. Qed.

(** C6: when the cidr cells of the data rows hold text the loader returns
    an index, without a diagnostic for a collision, in which a key is bound
    to the record of the last row that expands to it, whatever rows before
    it expand to the same key. *)
Theorem C6_last_row_wins (v6 : string → option (list string))
    (show_warnings : bool) (sheet rows1 rows2 : list sheet_row)
    (r : sheet_row) (c k : string) :
  drop 1 sheet = rows1 ++ r :: rows2 →
  Forall (λ r', row_cidr r' ≠ VNone) (drop 1 sheet) →
  row_cidr r = VStr c →
  k ∈ row_keys v6 r →
  (∀ r', r' ∈ rows2 → k ∉ row_keys v6 r') →
  ∃ d out,
    excel_to_cidr_dict v6 sheet show_warnings = Ok (d, out)
    ∧ d !! k = Some (information c r).
Proof.
  intros Hsheet Hall Hc Hk Hlater. unfold excel_to_cidr_dict.
  rewrite Hsheet in Hall |- *.
  apply Forall_app in Hall as [Hall1 Hall2].
  apply Forall_cons in Hall2 as [_ Hall2].
  destruct (loader_rows v6 show_warnings rows1 ∅ [] Hall1)
    as (d1 & out1 & Hrun1 & _).
  destruct (load_row_text v6 show_warnings r c d1 out1 Hc) as [out2 Hrun2].
  destruct (loader_rows v6 show_warnings rows2
              (bind_blocks (information c r) (row_blocks v6 c) d1) out2 Hall2)
    as (d3 & out3 & Hrun3 & Hkeep).
  exists d3, out3. split.
  - rewrite for_each_app, Hrun1.
    change (for_each (load_row v6 show_warnings) (r :: rows2) (d1, out1)
            = Ok (d3, out3)).
    cbn [for_each]. rewrite Hrun2. exact Hrun3.
  - rewrite (Hkeep k Hlater), bind_blocks_lookup.
    rewrite decide_True; [done|]. unfold row_keys in Hk. by rewrite Hc in Hk.
Qed.

Lemma C6_witness :
  drop 1 [header_row; core_row; overlap_row] = [] ++ core_row :: [overlap_row]
  ∧ "10.0.1" ∈ row_keys no_ipv6 core_row
  ∧ ∃ d out,
      excel_to_cidr_dict no_ipv6 [header_row; core_row; overlap_row] true
      = Ok (d, out)
      ∧ d !! "10.0.1" = Some (information "10.0.1.0/24" overlap_row).
Proof.
  split; [reflexivity|].
  split; [vm_compute; right; left|].
  apply (C6_last_row_wins no_ipv6 true [header_row; core_row; overlap_row]
           [core_row] [] overlap_row "10.0.1.0/24" "10.0.1").
  - reflexivity.
  - repeat constructor; discriminate.
  - reflexivity.
  - vm_compute. left.
  - intros r' Hr'. inversion Hr'.
Defined.

(** * Properties of the reachability check *)

Module check_facts.

Lemma py_in_spec (a : pyval) (l : list string) :
  py_in a l = true ↔ ∃ x, a = VStr x ∧ x ∈ l.
Proof.
  destruct a as [|x]; simpl.
  - split; [done | by intros (x & ? & _)].
  - rewrite bool_decide_eq_true. split; [by exists x|].
    by intros (y & [= ->] & Hy).
Qed.

(** Without warnings a lookup miss leaves the [try] statement towards
    line 155, with the names of the rows before. *)
Lemma try_lookup_miss_falls_through (info : gmap string info_dict)
    (src dst : pyval) (t : tally) (lv : locals) :
  info_getitem info src = None ∨ info_getitem info dst = None →
  ∃ lv', try_lookup false info src dst t lv
         = FallThrough
             (mkTally (total_count t) (failed_count t) (success_count t)
                (unmatched_count t + 1) (failed_strings t) (warning_strings t))
             lv'.
Proof.
  unfold try_lookup, except_KeyError.
  intros [H|H]; repeat case_match; simplify_eq; by eexists.
Qed.

(** A loop that returns has counted every row it received. *)
Lemma for_each_total (show_warnings : bool) (info : gmap string info_dict)
    (rows : list (gmap string pyval)) (t t' : tally) (lv lv' : locals) :
  for_each (process_row show_warnings info) rows (t, lv) = Ok (t', lv') →
  total_count t' = total_count t + Z.of_nat (length rows).
Proof.
  revert t lv. induction rows as [|row rows IH]; intros t lv H.
  - injection H as <- <-. simpl. lia.
  - cbn [for_each] in H. apply bind_Ok in H as ([t1 lv1] & Hrow & H).
    apply IH in H. rewrite H. cbn [length].
    enough (total_count t1 = total_count t + 1) by lia.
    clear H IH. unfold process_row in Hrow.
    apply bind_Ok in Hrow as (src & _ & Hrow).
    apply bind_Ok in Hrow as (dst & _ & Hrow).
    apply bind_Ok in Hrow as (np & _ & Hrow).
    unfold try_lookup, except_KeyError, check_reach in Hrow.
    repeat case_match; simplify_eq; try done.
    all: repeat (apply bind_Ok in Hrow as (? & _ & Hrow)).
    all: repeat case_match; simplify_eq; try done.
    all: repeat (apply bind_Ok in Hrow as (? & _ & Hrow)); by simplify_eq.
Qed.

Lemma drain_skip_blank (fields : list string) (rows : list (list string)) :
  drain fields rows
  = match skip_blank rows with
    | [] => []
    | row :: rest => row_dict fields row :: drain fields rest
    end.
Proof.
  induction rows as [|row rows IH]; [done|].
  destruct row as [|x row]; [exact IH | done].
Qed.

(** [for row in csvreader] is [__next__] until [StopIteration]. *)
Lemma DictReader_rows_next (r : DictReader) :
  DictReader_rows r
  = match DictReader_next r with
    | (Some row, r') => row :: DictReader_rows r'
    | (None, _) => []
    end.
Proof.
  unfold DictReader_rows, DictReader_next.
  destruct r as [rows [f|]]; [|destruct rows as [|h rows]];
    cbn [fieldnames _fieldnames reader default].
  - rewrite drain_skip_blank. destruct (skip_blank rows); reflexivity.
  - done.
  - rewrite drain_skip_blank. destruct (skip_blank rows); reflexivity.
Qed.

(** The loop of [check_flows] receives the rows after the header that are
    not blank, except the first of them. *)
Lemma check_flows_rows (header : list string) (data : list (list string)) :
  DictReader_rows (DictReader_next (mkReader (header :: data) None)).2
  = drop 1 (drain header data).
Proof.
  unfold DictReader_rows, DictReader_next.
  cbn [fieldnames _fieldnames reader default].
  rewrite (drain_skip_blank header data).
  destruct (skip_blank data); reflexivity.
Qed.

End check_facts.

Import check_facts.

(** C7: a row whose src and dst both resolve is counted once in [total]
    and then in [success] when the association of the source record is
    in the propagation list of the destination record, otherwise in
    [failed], with a message made from the two records alone. Whatever
    the packet count, the same src and dst give the same result, and a
    second such failing row raises [failed] again while the message set
    stays as it was. *)
Theorem C7_resolved_row (show_warnings : bool) (info : gmap string info_dict)
    (row : gmap string pyval) (src dst numpackets : pyval) (s d : info_dict)
    (t : tally) (lv : locals) :
  row !! "src" = Some src →
  row !! "dest" = Some dst →
  row !! "numpackets" = Some numpackets →
  info_getitem info src = Some s →
  info_getitem info dst = Some d →
  let allowed := ∃ a, associate_with s = VStr a ∧ a ∈ propagate_to d in
  let result :=
    failed_message (cidr s) (name s) (vpc_id s) (cidr d) (name d) (vpc_id d)
      (associate_with s) (propagate_to d) in
  ∃ t' lv',
    process_row show_warnings info row (t, lv) = Ok (t', lv')
    ∧ total_count t' = total_count t + 1
    ∧ unmatched_count t' = unmatched_count t
    ∧ warning_strings t' = warning_strings t
    ∧ (allowed →
         success_count t' = success_count t + 1
         ∧ failed_count t' = failed_count t
         ∧ failed_strings t' = failed_strings t)
    ∧ (¬ allowed →
         success_count t' = success_count t
         ∧ failed_count t' = failed_count t + 1
         ∧ failed_strings t' = {[ result ]} ∪ failed_strings t)
    ∧ (∀ (row2 : gmap string pyval) (numpackets2 : pyval),
         row2 !! "src" = Some src →
         row2 !! "dest" = Some dst →
         row2 !! "numpackets" = Some numpackets2 →
         process_row show_warnings info row2 (t, lv) = Ok (t', lv')
         ∧ ∃ t'' lv'',
             process_row show_warnings info row2 (t', lv') = Ok (t'', lv'')
             ∧ (¬ allowed →
                  failed_count t'' = failed_count t + 2
                  ∧ failed_strings t'' = failed_strings t')).
Proof.
  intros Hsrc Hdst Hnp Hs Hd allowed result.
  assert (Hin : py_in (associate_with s) (propagate_to d) = true ↔ allowed)
    by apply py_in_spec.
  assert (Hstep : ∀ (r : gmap string pyval) (np : pyval) (t0 : tally)
                    (lv0 : locals),
            r !! "src" = Some src → r !! "dest" = Some dst →
            r !! "numpackets" = Some np →
            process_row show_warnings info r (t0, lv0)
            = Ok (if py_in (associate_with s) (propagate_to d)
                  then mkTally (total_count t0 + 1) (failed_count t0)
                         (success_count t0 + 1) (unmatched_count t0)
                         (failed_strings t0) (warning_strings t0)
                  else mkTally (total_count t0 + 1) (failed_count t0 + 1)
                         (success_count t0) (unmatched_count t0)
                         ({[ result ]} ∪ failed_strings t0)
                         (warning_strings t0),
                  assign_dst d (assign_src s lv0))).
  { intros r np t0 lv0 H1 H2 H3. unfold process_row, getitem.
    rewrite H1, H2, H3. cbn [mbind outcome_bind].
    unfold try_lookup. rewrite Hs, Hd. unfold check_reach.
    cbn [assign_dst assign_src src_association dst_propagations src_cidr
         src_name src_vpc_id dst_cidr dst_name dst_vpc_id load_name mbind
         outcome_bind total_count failed_count success_count unmatched_count
         failed_strings warning_strings].
    by destruct (py_in (associate_with s) (propagate_to d)). }
  eexists _, _. split; [by eapply Hstep|].
  destruct (py_in (associate_with s) (propagate_to d)) eqn:Hp.
  - assert (allowed) by (by apply Hin).
    split_and!; try done.
    intros r2 np2 H1 H2 H3. split; [by eapply Hstep|].
    eexists _, _. split; [by eapply Hstep|]. done.
  - assert (¬ allowed) by (rewrite <- Hin; congruence).
    split_and!; try done.
    intros r2 np2 H1 H2 H3. split; [by eapply Hstep|].
    eexists _, _. split; [by eapply Hstep|]. intros _.
    cbn [failed_count failed_strings]. split; [lia|].
    by rewrite (assoc_L (∪)), (idemp_L (∪)).
Qed.

Lemma C7_witness :
  ∃ t' lv',
    process_row false example_info (row_dict flow_header core_to_spoke)
      (tally0, locals0) = Ok (t', lv')
    ∧ failed_count t' = 1
    ∧ ∃ t'' lv'',
        process_row false example_info
          (row_dict flow_header core_to_spoke_again) (t', lv')
        = Ok (t'', lv'')
        ∧ failed_count t'' = 2
        ∧ failed_strings t'' = failed_strings t'.
Proof.
  destruct (C7_resolved_row false example_info
              (row_dict flow_header core_to_spoke)
              (VStr "10.0.0") (VStr "10.0.5") (VStr "3") core_info spoke_info
              tally0 locals0)
    as (t' & lv' & Hrun & _ & _ & _ & _ & Hfail & Hagain);
    [vm_compute; reflexivity..|].
  assert (Hno : ¬ ∃ a, associate_with core_info = VStr a
                       ∧ a ∈ propagate_to spoke_info).
  { intros (a & [= <-] & Ha). simpl in Ha.
    apply list_elem_of_In in Ha. simpl in Ha. intuition discriminate. }
  exists t', lv'. split; [exact Hrun|].
  destruct (Hfail Hno) as (_ & Hf & _). split; [rewrite Hf; reflexivity|].
  destruct (Hagain (row_dict flow_header core_to_spoke_again) (VStr "12"))
    as (_ & t'' & lv'' & Hrun2 & Hcount); [vm_compute; reflexivity..|].
  exists t'', lv''. split; [exact Hrun2|].
  destruct (Hcount Hno) as [Hc Hs]. split; [rewrite Hc; reflexivity | exact Hs].
Defined.

(** C10: with warnings on, a row whose src or dst is not in the index
    leaves the [try] statement by [continue], so line 155 is not reached;
    it is counted in [total] and [unmatched], [success], [failed] and the
    failure messages stay as they were, and the warning set gains the one
    message of the first key that misses: src when src misses, else
    dst. *)
Theorem C10_unmatched_row_with_warnings (info : gmap string info_dict)
    (row : gmap string pyval) (src dst numpackets : pyval) (t : tally)
    (lv : locals) :
  row !! "src" = Some src →
  row !! "dest" = Some dst →
  row !! "numpackets" = Some numpackets →
  info_getitem info src = None ∨ info_getitem info dst = None →
  let missing :=
    match info_getitem info src with None => src | Some _ => dst end in
  (∀ t0 lv0, ∃ t1 lv1, try_lookup true info src dst t0 lv0 = Continue t1 lv1)
  ∧ ∃ t' lv',
      process_row true info row (t, lv) = Ok (t', lv')
      ∧ total_count t' = total_count t + 1
      ∧ unmatched_count t' = unmatched_count t + 1
      ∧ success_count t' = success_count t
      ∧ failed_count t' = failed_count t
      ∧ failed_strings t' = failed_strings t
      ∧ warning_strings t'
        = {[ "Warning: no entry for " +:+ py_repr missing ]}
          ∪ warning_strings t.
Proof.
  intros Hsrc Hdst Hnp Hmiss missing. split.
  - intros t0 lv0. unfold try_lookup, except_KeyError.
    destruct Hmiss as [H|H]; repeat case_match; simplify_eq; by eexists _, _.
  - unfold process_row, getitem. rewrite Hsrc, Hdst, Hnp.
    cbn [mbind outcome_bind]. unfold try_lookup, except_KeyError. subst missing.
    destruct (info_getitem info src) as [s|] eqn:Hs.
    + destruct Hmiss as [H|H]; [done|]. rewrite H.
      eexists _, _. split; [reflexivity|]. by split_and!.
    + eexists _, _. split; [reflexivity|]. by split_and!.
Qed.

Lemma C10_witness :
  ∃ t' lv',
    process_row true example_info (row_dict flow_header core_to_stray)
      (tally0, locals0) = Ok (t', lv')
    ∧ unmatched_count t' = 1
    ∧ failed_count t' = 0
    ∧ warning_strings t' = {[ "Warning: no entry for '10.0.7'" ]}.
Proof.
  destruct (C10_unmatched_row_with_warnings example_info
              (row_dict flow_header core_to_stray)
              (VStr "10.0.0") (VStr "10.0.7") (VStr "4") tally0 locals0)
    as (_ & t' & lv' & Hrun & _ & Hu & _ & Hf & _ & Hw);
    [vm_compute; reflexivity.. | right; vm_compute; reflexivity |].
  exists t', lv'. split; [exact Hrun|].
  split; [rewrite Hu; reflexivity|]. split; [rewrite Hf; reflexivity|].
  rewrite Hw. vm_compute. reflexivity.
Defined.

(** C1 without warnings: the [continue] of line 152 is under
    [if show_warnings], so the unmatched row [core_to_stray] goes on to
    line 155 with [dst_propagations] of the row before and is counted in
    [failed] as well as in [unmatched]; as the first row of the loop it
    stops the run on the unbound name. *)
Theorem C1_unmatched_row_is_judged_without_warnings :
  info_getitem example_info (VStr "10.0.7") = None
  ∧ (∃ t1 lv1 t2 lv2,
       process_row false example_info (row_dict flow_header core_to_spoke)
         (tally0, locals0) = Ok (t1, lv1)
       ∧ process_row false example_info (row_dict flow_header core_to_stray)
           (t1, lv1) = Ok (t2, lv2)
       ∧ unmatched_count t1 = 0 ∧ failed_count t1 = 1
       ∧ unmatched_count t2 = 1 ∧ failed_count t2 = 2)
  ∧ process_row false example_info (row_dict flow_header core_to_stray)
      (tally0, locals0) = Raise (UnboundLocalError "dst_propagations").
Proof.
  split; [vm_refl|]. split; [|vm_refl].
  pose (s1 := ltac:(let r := returned
                 (process_row false example_info
                    (row_dict flow_header core_to_spoke) (tally0, locals0))
               in exact r)).
  pose (s2 := ltac:(let r := returned
                 (process_row false example_info
                    (row_dict flow_header core_to_stray) s1)
               in exact r)).
  exists s1.1, s1.2, s2.1, s2.2. split_and!; vm_refl.
Qed.

(** C2: two orders of the same flow rows give different counters. Without
    warnings the unmatched row [stray_to_core] is judged with the names of
    the row before it; with warnings the row that [next] takes away after
    the header is a different one. *)
Theorem C2_row_order_changes_the_counters :
  let first := core_to_shared in
  Permutation [first; core_to_shared; stray_to_core; core_to_spoke]
              [first; core_to_shared; core_to_spoke; stray_to_core]
  ∧ (∃ t1 lv1 t2 lv2,
       check_flows false example_info
         [flow_header; first; core_to_shared; stray_to_core; core_to_spoke]
       = Ok (t1, lv1)
       ∧ check_flows false example_info
           [flow_header; first; core_to_shared; core_to_spoke; stray_to_core]
         = Ok (t2, lv2)
       ∧ success_count t1 = 2 ∧ failed_count t1 = 1
       ∧ success_count t2 = 1 ∧ failed_count t2 = 2)
  ∧ (∃ t1 lv1 t2 lv2,
       check_flows true example_info
         [flow_header; core_to_shared; core_to_spoke] = Ok (t1, lv1)
       ∧ check_flows true example_info
           [flow_header; core_to_spoke; core_to_shared] = Ok (t2, lv2)
       ∧ success_count t1 = 0 ∧ failed_count t1 = 1
       ∧ success_count t2 = 1 ∧ failed_count t2 = 0).
Proof.
  split; [do 2 apply perm_skip; apply perm_swap|].
  split;
    match goal with
    | |- ∃ t1 lv1 t2 lv2, ?run1 = _ ∧ ?run2 = _ ∧ _ =>
        let r1 := returned run1 in
        let r2 := returned run2 in
        exists r1.1, r1.2, r2.1, r2.2
    end; split_and!; vm_refl.
Qed.

(** C3: [DictReader] reads the header by itself, so the [next] of line 126
    takes the first data row away: a file of a header and one data row
    gives [Total processed rows: 0]. *)
Theorem C3_first_data_row_is_not_counted (show_warnings : bool)
    (info : gmap string info_dict) (header row : list string) :
  ∃ t lv,
    check_flows show_warnings info [header; row] = Ok (t, lv)
    ∧ total_count t = 0
    ∧ In (PrintLine "Total processed rows: 0") (print_summary show_warnings t).
Proof.
  exists tally0, locals0. split.
  - unfold check_flows. rewrite check_flows_rows. by destruct row.
  - split; [done|]. unfold print_summary. apply in_or_app. right.
    apply in_or_app. right. apply in_or_app. left. simpl. auto.
Qed.

(** In general [total] is one less than the number of data rows that are
    not blank. *)
Lemma check_flows_total (show_warnings : bool) (info : gmap string info_dict)
    (header : list string) (data : list (list string)) (t : tally)
    (lv : locals) :
  check_flows show_warnings info (header :: data) = Ok (t, lv) →
  total_count t = Z.of_nat (length (drain header data) - 1).
Proof.
  unfold check_flows. rewrite check_flows_rows. intros H.
  apply for_each_total in H. rewrite H, length_drop. simpl. lia.
Qed.

(** * Properties of the cells of a row *)

Module cell_facts.
Import Str_facts.

Lemma remove_no_char (c : ascii) (s : string) :
  Str.any_char (λ a, Ascii.eqb a c) (Str.remove c s) = false.
Proof.
  induction s as [|a s IH]; simpl; [done|].
  destruct (Ascii.eqb a c) eqn:Ha; simpl; [done|]. by rewrite Ha.
Qed.

Lemma remove_filter (c : ascii) (s : string) :
  list_ascii_of_string (Str.remove c s)
  = List.filter (λ a, negb (Ascii.eqb a c)) (list_ascii_of_string s).
Proof.
  induction s as [|a s IH]; simpl; [done|].
  destruct (Ascii.eqb a c); simpl; by rewrite IH.
Qed.

Lemma remove_idemp (c : ascii) (s : string) :
  Str.remove c (Str.remove c s) = Str.remove c s.
Proof.
  induction s as [|a s IH]; simpl; [done|].
  destruct (Ascii.eqb a c) eqn:Ha; simpl; [done|]. by rewrite Ha, IH.
Qed.

(** [split] cuts at every separator and nowhere else. *)
Lemma join_split (sep : ascii) (s : string) :
  Str.join (String sep "") (Str.split sep s) = s.
Proof.
  unfold Str.split. induction s as [|a s IH]; simpl; [done|].
  destruct (Str.split_fields sep s) as [w ws].
  destruct (Ascii.eqb_spec a sep) as [->|].
  - cbn [Str.join] in *. by rewrite IH.
  - destruct ws as [|w' ws]; cbn [Str.join] in *.
    + by rewrite IH.
    + rewrite str_app_cons. by rewrite IH.
Qed.

Lemma split_no_sep (sep : ascii) (s : string) :
  Forall (λ w, Str.all_chars (other_than sep) w = true) (Str.split sep s).
Proof.
  unfold Str.split. induction s as [|a s IH]; simpl.
  - by repeat constructor.
  - destruct (Str.split_fields sep s) as [w ws].
    apply Forall_cons in IH as [Hw Hws].
    destruct (Ascii.eqb a sep) eqn:Ha.
    + by repeat constructor.
    + constructor; [|done]. simpl. unfold other_than at 1. by rewrite Ha.
Qed.

Lemma lstrip_spec (s : string) :
  ∃ l, s = l +:+ Str.lstrip s ∧ Str.all_chars Str.isspace l = true.
Proof.
  induction s as [|a s (l & Hl & Hsp)]; simpl.
  - by exists "".
  - destruct (Str.isspace a) eqn:Ha.
    + exists (String a l). rewrite str_app_cons, <- Hl. simpl. by rewrite Ha.
    + by exists "".
Qed.

Lemma lstrip_head (s : string) (c : ascii) (s' : string) :
  Str.lstrip s = String c s' → Str.isspace c = false.
Proof.
  induction s as [|a s IH]; simpl; [done|].
  destruct (Str.isspace a) eqn:Ha; [done|]. by intros [= <- _].
Qed.

Lemma rstrip_spec (s : string) :
  ∃ r, s = Str.rstrip s +:+ r ∧ Str.all_chars Str.isspace r = true.
Proof.
  induction s as [|a s (r & Hr & Hsp)]; simpl.
  - by exists "".
  - destruct (Str.rstrip s) as [|b t] eqn:Ht.
    + rewrite str_app_nil_l in Hr. subst r.
      destruct (Str.isspace a) eqn:Ha.
      * exists (String a s). simpl. by rewrite Ha.
      * exists s. by rewrite str_app_cons, str_app_nil_l.
    + exists r. by rewrite str_app_cons, <- Hr.
Qed.

Lemma rstrip_head (c : ascii) (s : string) :
  Str.isspace c = false → ∃ t, Str.rstrip (String c s) = String c t.
Proof.
  intros Hc. simpl. rewrite Hc. destruct (Str.rstrip s); by eexists.
Qed.

Lemma rstrip_last (s s' : string) (c : ascii) :
  Str.rstrip s = s' +:+ String c "" → Str.isspace c = false.
Proof.
  revert s'. induction s as [|a s IH]; intros s'; simpl.
  - by destruct s'.
  - destruct (Str.rstrip s) as [|b t] eqn:Ht.
    + destruct (Str.isspace a) eqn:Ha; [by destruct s'|].
      destruct s' as [|x [|y s']]; [|done..]. by intros [= <-].
    + destruct s' as [|x s']; [done|].
      rewrite str_app_cons. intros [= <- H]. by eapply IH.
Qed.

(** [strip] takes whitespace, and nothing else, from both ends. *)
Lemma strip_spec (s : string) :
  trimmed (Str.strip s)
  ∧ ∃ l r, s = l +:+ Str.strip s +:+ r
           ∧ Str.all_chars Str.isspace l = true
           ∧ Str.all_chars Str.isspace r = true.
Proof.
  unfold Str.strip. split; [split|].
  - intros c s' H.
    destruct (Str.lstrip s) as [|a t] eqn:Ht; [done|].
    pose proof (lstrip_head _ _ _ Ht) as Ha.
    destruct (rstrip_head a t Ha) as [t' Ht']. rewrite Ht' in H.
    by injection H as <- _.
  - intros s' c H. by eapply rstrip_last.
  - destruct (lstrip_spec s) as (l & Hl & Hlsp).
    destruct (rstrip_spec (Str.lstrip s)) as (r & Hr & Hrsp).
    exists l, r. by rewrite <- Hr.
Qed.

End cell_facts.

Import cell_facts.

(** C8, amended: the cidr that is parsed and stored is the cell text with
    every blank (U+0020) removed and all its other characters, tabs
    included, kept in order; [propagate_to] is cut at every comma, each
    piece with the whitespace of both its ends taken away, and an empty
    cell gives the empty list. *)
Theorem C8_normalized_cells (v6 : string → option (list string))
    (show_warnings : bool) (row : sheet_row) (c : string)
    (st : gmap string info_dict * list string) :
  row_cidr row = VStr c →
  let info := information c row in
  Str.any_char (λ a, Ascii.eqb a " ") (cidr info) = false
  ∧ list_ascii_of_string (cidr info)
    = List.filter (λ a, negb (Ascii.eqb a " ")) (list_ascii_of_string c)
  ∧ load_row v6 show_warnings row st
    = load_row v6 show_warnings (with_cidr (VStr (cidr info)) row) st
  ∧ (row_propagate_to row = VNone ∨ row_propagate_to row = VStr "" →
       propagate_to info = [])
  ∧ (∀ s, row_propagate_to row = VStr s → s ≠ "" →
       Str.join "," (Str.split "," s) = s
       ∧ Forall (λ w, Str.all_chars (other_than ",") w = true)
           (Str.split "," s)
       ∧ Forall2
           (λ w tag,
              tag = Str.strip w ∧ trimmed tag
              ∧ ∃ l r, w = l +:+ tag +:+ r
                       ∧ Str.all_chars Str.isspace l = true
                       ∧ Str.all_chars Str.isspace r = true)
           (Str.split "," s) (propagate_to info)).
Proof.
  intros Hc info. subst info. cbn [cidr information propagate_to].
  unfold normalize_cidr. split_and!.
  - apply remove_no_char.
  - apply remove_filter.
  - unfold load_row, with_cidr. rewrite Hc. cbn [row_cidr].
    unfold information, normalize_cidr. cbn [row_account_id row_name
      row_vpc_id row_associate_with row_propagate_to cidr name].
    by rewrite remove_idemp.
  - by intros [-> | ->].
  - intros s Hs Hne. rewrite Hs. unfold parse_propagate_to.
    destruct s as [|a s]; [done|]. cbn [truthy].
    split_and!; [apply join_split | apply split_no_sep |].
    induction (Str.split "," (String a s)) as [|w ws IH]; simpl;
      constructor; [|done].
    split; [done|]. apply strip_spec.
Qed.

Lemma C8_witness :
  row_cidr blank_row = VStr " 10.215.96.0 /21"
  ∧ cidr (information " 10.215.96.0 /21" blank_row) = "10.215.96.0/21"
  ∧ Str.any_char (λ a, Ascii.eqb a " ")
      (cidr (information " 10.215.96.0 /21" blank_row)) = false
  ∧ propagate_to (information " 10.215.96.0 /21" blank_row)
    = ["Infrastructure"; "On premises"].
Proof.
  split; [reflexivity|]. split; [reflexivity|].
  split; [|reflexivity].
  exact (proj1 (C8_normalized_cells no_ipv6 true blank_row " 10.215.96.0 /21"
                  (∅, []) eq_refl)).
Defined.

(** C8 as stated fails: a tab is whitespace and stays in the cidr. *)
Lemma C8_tab_is_kept :
  row_cidr tab_row = VStr tab_cidr
  ∧ cidr (information tab_cidr tab_row) = tab_cidr
  ∧ ¬ (Str.any_char Str.isspace (cidr (information tab_cidr tab_row)) = false).
Proof. split; [reflexivity|]. split; [reflexivity|]. by vm_compute. Qed.

(** * Properties of the command line *)

(** C9: when one of the two paths is not a file, [main] prints that the
    first such path, the workbook before the flow log, does not exist and
    exits with code 1; nothing else is printed and neither file is opened.
    When both are files, [main] opens the workbook first and does not exit
    with code 1; once the loader has returned the index it opens the flow
    log, and when the loop over its rows returns it prints the summary and
    returns. *)
Theorem C9_missing_input_exits (v6 : string → option (list string))
    (w : world) (a : arguments) :
  (isfile w (xlsx a) = false ∨ isfile w (flowlogcsv a) = false →
     let missing := if isfile w (xlsx a) then flowlogcsv a else xlsx a in
     isfile w missing = false
     ∧ main v6 w a = ([PrintLine (missing +:+ " does not exist.")], SysExit 1)
     ∧ ∀ path, (OpenWorkbook path ∉ fst (main v6 w a))
               ∧ (OpenFile path ∉ fst (main v6 w a)))
  ∧ (isfile w (xlsx a) = true → isfile w (flowlogcsv a) = true →
     snd (main v6 w a) ≠ SysExit 1
     ∧ (∃ rest, fst (main v6 w a) = OpenWorkbook (xlsx a) :: rest)
     ∧ ∀ sheet info out,
         load_workbook w (xlsx a) = Ok sheet →
         excel_to_cidr_dict v6 sheet (show_warnings_flag a) = Ok (info, out) →
         OpenFile (flowlogcsv a) ∈ fst (main v6 w a)
         ∧ ∀ csv_rows t lv,
             csv_reader w (flowlogcsv a) = Ok csv_rows →
             check_flows (show_warnings_flag a) info csv_rows = Ok (t, lv) →
             main v6 w a
             = ([OpenWorkbook (xlsx a)] ++ map PrintLine out
                ++ [OpenFile (flowlogcsv a)]
                ++ print_summary (show_warnings_flag a) t, Returned)).
Proof.
  unfold main, first_missing. cbn [find]. split.
  - intros Hmiss.
    destruct (isfile w (xlsx a)) eqn:Hx; cbn [negb].
    + destruct Hmiss as [|Hf]; [done|]. rewrite Hf. cbn [negb].
      split_and!; [done..|]. intros path. cbn [fst].
      split; intros H; apply list_elem_of_In in H; simpl in H;
        intuition discriminate.
    + split_and!; [done..|]. intros path. cbn [fst].
      split; intros H; apply list_elem_of_In in H; simpl in H;
        intuition discriminate.
  - intros -> ->. cbn [negb]. unfold run_checks.
    destruct (load_workbook w (xlsx a)) as [sheet|e];
      [|by split_and!; [|eexists|]].
    destruct (excel_to_cidr_dict v6 sheet (show_warnings_flag a))
      as [[info out]|e] eqn:Hload.
    2: { split_and!; [done | by eexists |].
         intros ? ? ? [= <-] H. congruence. }
    assert (Hopen : ∀ tail,
              OpenFile (flowlogcsv a)
              ∈ ([OpenWorkbook (xlsx a)] ++ map PrintLine out
                 ++ [OpenFile (flowlogcsv a)]) ++ tail).
    { intros tail. apply list_elem_of_In, in_or_app. left.
      apply in_or_app. right. apply in_or_app. right. by left. }
    destruct (csv_reader w (flowlogcsv a)) as [csv_rows|e] eqn:Hcsv.
    2: { split_and!; [done | by eexists |].
         intros ? ? ? [= <-] H. rewrite Hload in H. injection H as <- <-.
         split; [|done]. cbn [fst]. rewrite <- (app_nil_r (_ ++ _)).
         apply Hopen. }
    destruct (check_flows (show_warnings_flag a) info csv_rows)
      as [[t lv]|e] eqn:Hcheck.
    + split_and!; [done | by eexists |].
      intros ? ? ? [= <-] H. rewrite Hload in H. injection H as <- <-.
      split; [apply Hopen|].
      intros ? ? ? [= <-] H. rewrite Hcheck in H. injection H as <- <-.
      by rewrite <- !app_assoc.
    + split_and!; [done | by eexists |].
      intros ? ? ? [= <-] H. rewrite Hload in H. injection H as <- <-.
      split; [|intros ? ? ? [= <-] H; congruence].
      cbn [fst]. rewrite <- (app_nil_r (_ ++ _)). apply Hopen.
Qed.

Lemma C9_witness :
  main no_ipv6 example_world (mkArgs "network.xlsx" "missing.csv" true)
  = ([PrintLine "missing.csv does not exist."], SysExit 1)
  ∧ snd (main no_ipv6 example_world (mkArgs "network.xlsx" "athena.csv" true))
    ≠ SysExit 1.
Proof.
  split.
  - refine (proj1 (proj2 (proj1 (C9_missing_input_exits no_ipv6 example_world
                     (mkArgs "network.xlsx" "missing.csv" true)) _))).
    right. reflexivity.
  - refine (proj1 (proj2 (C9_missing_input_exits no_ipv6 example_world
                     (mkArgs "network.xlsx" "athena.csv" true)) _ _));
      reflexivity.
Defined.

(** * Row order when warnings are on *)

Module order_facts.

Lemma tally_add_swap (x y t : tally) :
  tally_add x (tally_add y t) = tally_add y (tally_add x t).
Proof.
  unfold tally_add. cbn [total_count failed_count success_count
    unmatched_count failed_strings warning_strings].
  f_equal; try lia.
  - by rewrite !(assoc_L (∪)), (comm_L (∪) (failed_strings x)).
  - by rewrite !(assoc_L (∪)), (comm_L (∪) (warning_strings x)).
Qed.

Lemma process_row_warnings (info : gmap string info_dict)
    (row : gmap string pyval) (t : tally) (lv : locals) :
  has_columns row →
  ∃ lv', process_row true info row (t, lv)
         = Ok (tally_add (dict_tally info row) t, lv').
Proof.
  intros ([src Hsrc] & [dst Hdst] & [np Hnp]).
  unfold process_row, getitem, dict_tally. rewrite Hsrc, Hdst, Hnp.
  cbn [mbind outcome_bind]. unfold try_lookup, except_KeyError, row_tally.
  destruct (info_getitem info src) as [s|].
  - destruct (info_getitem info dst) as [d|].
    + unfold check_reach.
      cbn [assign_dst assign_src src_association dst_propagations src_cidr
           src_name src_vpc_id dst_cidr dst_name dst_vpc_id load_name mbind
           outcome_bind].
      destruct (py_in (associate_with s) (propagate_to d)); cbn [negb];
        eexists; f_equal; f_equal; unfold tally_add;
        cbn [total_count failed_count success_count unmatched_count
             failed_strings warning_strings];
        by rewrite ?Z.add_0_r, ?(left_id_L ∅ (∪)).
    + eexists; f_equal; f_equal; unfold tally_add;
        cbn [total_count failed_count success_count unmatched_count
             failed_strings warning_strings];
        by rewrite ?Z.add_0_r, ?(left_id_L ∅ (∪)).
  - eexists; f_equal; f_equal; unfold tally_add;
      cbn [total_count failed_count success_count unmatched_count
           failed_strings warning_strings];
      by rewrite ?Z.add_0_r, ?(left_id_L ∅ (∪)).
Qed.

Lemma for_each_warnings (info : gmap string info_dict)
    (rows : list (gmap string pyval)) (t : tally) (lv : locals) :
  Forall has_columns rows →
  ∃ lv', for_each (process_row true info) rows (t, lv)
         = Ok (foldl (λ t row, tally_add (dict_tally info row) t) t rows, lv').
Proof.
  revert t lv. induction rows as [|row rows IH]; intros t lv Hrows.
  - by eexists.
  - apply Forall_cons in Hrows as [Hrow Hrows].
    destruct (process_row_warnings info row t lv Hrow) as [lv1 H1].
    destruct (IH (tally_add (dict_tally info row) t) lv1 Hrows) as [lv2 H2].
    exists lv2. cbn [for_each foldl]. rewrite H1. exact H2.
Qed.

Lemma foldl_tally_perm (info : gmap string info_dict)
    (rows rows' : list (gmap string pyval)) (t : tally) :
  Permutation rows rows' →
  foldl (λ t row, tally_add (dict_tally info row) t) t rows
  = foldl (λ t row, tally_add (dict_tally info row) t) t rows'.
Proof.
  intros Hp. revert t.
  induction Hp as [|x l l' _ IH|x y l|l l' l'' _ IH1 _ IH2]; intros t.
  - done.
  - cbn [foldl]. apply IH.
  - cbn [foldl]. by rewrite tally_add_swap.
  - by rewrite IH1.
Qed.

(** With warnings on, the loop over rows that have the three columns
    returns, and the order of the rows does not change the counters and
    sets it returns. *)
Lemma loop_order_with_warnings (info : gmap string info_dict)
    (rows rows' : list (gmap string pyval)) (t : tally) (lv lv0 : locals) :
  Permutation rows rows' →
  Forall has_columns rows →
  ∃ t' lv1 lv2,
    for_each (process_row true info) rows (t, lv) = Ok (t', lv1)
    ∧ for_each (process_row true info) rows' (t, lv0) = Ok (t', lv2).
Proof.
  intros Hp Hrows.
  assert (Hrows' : Forall has_columns rows').
  { rewrite Forall_forall in Hrows |- *. intros r Hr. apply Hrows.
    apply list_elem_of_In. apply list_elem_of_In in Hr.
    by apply (Permutation_in _ (Permutation_sym Hp)). }
  destruct (for_each_warnings info rows t lv Hrows) as [lv1 H1].
  destruct (for_each_warnings info rows' t lv0 Hrows') as [lv2 H2].
  eexists _, lv1, lv2. split; [exact H1|].
  by rewrite (foldl_tally_perm info rows rows' t Hp).
Qed.

End order_facts.


(** * Further properties of the reachability check *)

Module tally_facts.

Lemma size_add_message (m : string) (X : gset string) :
  (size ({[ m ]} ∪ X) ≤ S (size X))%nat.
Proof.
  rewrite size_union_alt, size_singleton.
  apply le_n_S, subseteq_size. intros x Hx.
  by apply elem_of_difference in Hx as [Hx _].
Qed.

(** One row keeps the message set within the failed count, and without
    warnings it keeps the warning set as it is. *)
Lemma process_row_dedup (show_warnings : bool) (info : gmap string info_dict)
    (row : gmap string pyval) (t t' : tally) (lv lv' : locals) :
  process_row show_warnings info row (t, lv) = Ok (t', lv') →
  (Z.of_nat (size (failed_strings t)) ≤ failed_count t →
   Z.of_nat (size (failed_strings t')) ≤ failed_count t')
  ∧ (show_warnings = false → warning_strings t' = warning_strings t).
Proof.
  unfold process_row. intros H.
  apply bind_Ok in H as (src & _ & H). apply bind_Ok in H as (dst & _ & H).
  apply bind_Ok in H as (np & _ & H).
  unfold try_lookup, except_KeyError, check_reach in H.
  repeat case_match; simplify_eq; try done.
  all: repeat (apply bind_Ok in H as (? & _ & H)).
  all: repeat case_match; simplify_eq; try done.
  all: repeat (apply bind_Ok in H as (? & _ & H)); simplify_eq.
  all: cbn [failed_strings failed_count warning_strings].
  all: split; [|done].
  all: try (intros; lia).
  all: intros Hle;
    match goal with
    | |- context [ {[ ?m ]} ∪ ?X ] => pose proof (size_add_message m X)
    end; lia.
Qed.

(** With warnings on, a row goes to exactly one of [unmatched], [success]
    and [failed]. *)
Lemma process_row_one_bucket (info : gmap string info_dict)
    (row : gmap string pyval) (t t' : tally) (lv lv' : locals) :
  process_row true info row (t, lv) = Ok (t', lv') →
  total_count t' - (unmatched_count t' + success_count t' + failed_count t')
  = total_count t - (unmatched_count t + success_count t + failed_count t).
Proof.
  unfold process_row. intros H.
  apply bind_Ok in H as (src & _ & H). apply bind_Ok in H as (dst & _ & H).
  apply bind_Ok in H as (np & _ & H).
  unfold try_lookup, except_KeyError, check_reach in H.
  repeat case_match; simplify_eq; try done.
  all: repeat (apply bind_Ok in H as (? & _ & H)).
  all: repeat case_match; simplify_eq; try done.
  all: repeat (apply bind_Ok in H as (? & _ & H)); simplify_eq.
  all: cbn [total_count failed_count success_count unmatched_count]; lia.
Qed.

(** Without warnings every row that does not stop the run is judged. *)
Lemma process_row_always_judged (info : gmap string info_dict)
    (row : gmap string pyval) (t t' : tally) (lv lv' : locals) :
  process_row false info row (t, lv) = Ok (t', lv') →
  total_count t' - (success_count t' + failed_count t')
  = total_count t - (success_count t + failed_count t)
  ∧ 0 ≤ unmatched_count t' - unmatched_count t ≤ 1.
Proof.
  unfold process_row. intros H.
  apply bind_Ok in H as (src & _ & H). apply bind_Ok in H as (dst & _ & H).
  apply bind_Ok in H as (np & _ & H).
  unfold try_lookup, except_KeyError, check_reach in H.
  repeat case_match; simplify_eq; try done.
  all: repeat (apply bind_Ok in H as (? & _ & H)).
  all: repeat case_match; simplify_eq; try done.
  all: repeat (apply bind_Ok in H as (? & _ & H)); simplify_eq.
  all: cbn [total_count failed_count success_count unmatched_count]; lia.
Qed.

(** The three facts over a whole loop. *)
Lemma for_each_dedup (show_warnings : bool) (info : gmap string info_dict)
    (rows : list (gmap string pyval)) (t t' : tally) (lv lv' : locals) :
  for_each (process_row show_warnings info) rows (t, lv) = Ok (t', lv') →
  (Z.of_nat (size (failed_strings t)) ≤ failed_count t →
   Z.of_nat (size (failed_strings t')) ≤ failed_count t')
  ∧ (show_warnings = false → warning_strings t' = warning_strings t).
Proof.
  revert t lv. induction rows as [|row rows IH]; intros t lv H.
  - by injection H as <- <-.
  - cbn [for_each] in H. apply bind_Ok in H as ([t1 lv1] & Hrow & H).
    apply process_row_dedup in Hrow as [H1 H2].
    apply IH in H as [H3 H4]. split; [tauto|].
    intros Hs. by rewrite H4, H2.
Qed.

Lemma for_each_one_bucket (info : gmap string info_dict)
    (rows : list (gmap string pyval)) (t t' : tally) (lv lv' : locals) :
  for_each (process_row true info) rows (t, lv) = Ok (t', lv') →
  total_count t' - (unmatched_count t' + success_count t' + failed_count t')
  = total_count t - (unmatched_count t + success_count t + failed_count t).
Proof.
  revert t lv. induction rows as [|row rows IH]; intros t lv H.
  - by injection H as <- <-.
  - cbn [for_each] in H. apply bind_Ok in H as ([t1 lv1] & Hrow & H).
    apply process_row_one_bucket in Hrow. apply IH in H. lia.
Qed.

Lemma for_each_always_judged (info : gmap string info_dict)
    (rows : list (gmap string pyval)) (t t' : tally) (lv lv' : locals) :
  for_each (process_row false info) rows (t, lv) = Ok (t', lv') →
  total_count t' - (success_count t' + failed_count t')
  = total_count t - (success_count t + failed_count t)
  ∧ 0 ≤ unmatched_count t' - unmatched_count t ≤ Z.of_nat (length rows).
Proof.
  revert t lv. induction rows as [|row rows IH]; intros t lv H.
  - injection H as <- <-. simpl. lia.
  - cbn [for_each] in H. apply bind_Ok in H as ([t1 lv1] & Hrow & H).
    apply process_row_always_judged in Hrow. apply IH in H.
    cbn [length]. lia.
Qed.

End tally_facts.

Import tally_facts.

(** X1: when a run with warnings returns, every counted row is in exactly
    one of the three other counters: [total] is the sum of [unmatched],
    [success] and [failed]. *)
Theorem summary_adds_up_with_warnings (info : gmap string info_dict)
    (csv_rows : list (list string)) (t : tally) (lv : locals) :
  check_flows true info csv_rows = Ok (t, lv) →
  total_count t = unmatched_count t + success_count t + failed_count t.
Proof.
  unfold check_flows. intros H. apply for_each_one_bucket in H.
  cbn [tally0 total_count unmatched_count success_count failed_count] in H.
  lia.
Qed.

Lemma summary_adds_up_with_warnings_witness :
  ∃ t lv,
    check_flows true example_info
      [flow_header; core_to_shared; core_to_spoke; core_to_stray;
       core_to_shared] = Ok (t, lv)
    ∧ total_count t = 3
    ∧ total_count t = unmatched_count t + success_count t + failed_count t.
Proof.
  match goal with
  | |- ∃ t lv, check_flows ?sw ?info ?rows = _ ∧ _ =>
      let r := returned (check_flows sw info rows) in
      exists r.1, r.2; split; [vm_refl|]; split; [vm_refl|];
      assert (Hrun : check_flows sw info rows = Ok (r.1, r.2)) by vm_refl;
      exact (summary_adds_up_with_warnings _ _ _ _ Hrun)
  end.
Defined.

(** X2: when a run without warnings returns, every counted row was judged,
    the unmatched ones too: [total] is the sum of [success] and [failed],
    [unmatched] is counted on top of them and is at most [total], and the
    warning set is empty. *)
Theorem summary_without_warnings (info : gmap string info_dict)
    (csv_rows : list (list string)) (t : tally) (lv : locals) :
  check_flows false info csv_rows = Ok (t, lv) →
  total_count t = success_count t + failed_count t
  ∧ 0 ≤ unmatched_count t ≤ total_count t
  ∧ warning_strings t = ∅.
Proof.
  unfold check_flows. intros H.
  pose proof (for_each_total _ _ _ _ _ _ _ H) as Htot.
  pose proof (for_each_always_judged _ _ _ _ _ _ H) as [Hj Hu].
  apply for_each_dedup in H as [_ Hw].
  cbn [tally0 total_count unmatched_count success_count failed_count
       warning_strings] in *.
  split_and!; [lia..|by apply Hw].
Qed.

Lemma summary_without_warnings_witness :
  ∃ t lv,
    check_flows false example_info
      [flow_header; core_to_shared; core_to_spoke; core_to_stray] = Ok (t, lv)
    ∧ unmatched_count t = 1
    ∧ total_count t = success_count t + failed_count t.
Proof.
  match goal with
  | |- ∃ t lv, check_flows ?sw ?info ?rows = _ ∧ _ =>
      let r := returned (check_flows sw info rows) in
      exists r.1, r.2; split; [vm_refl|]; split; [vm_refl|];
      assert (Hrun : check_flows sw info rows = Ok (r.1, r.2)) by vm_refl;
      exact (proj1 (summary_without_warnings _ _ _ _ Hrun))
  end.
Defined.

(** X3: the number of distinct failure messages that the summary prints
    under [Deduplicated failed rows] is never more than [Failed rows]. *)
Theorem deduplicated_at_most_failed (show_warnings : bool)
    (info : gmap string info_dict) (csv_rows : list (list string))
    (t : tally) (lv : locals) :
  check_flows show_warnings info csv_rows = Ok (t, lv) →
  Z.of_nat (size (failed_strings t)) ≤ failed_count t.
Proof.
  unfold check_flows. intros H. apply for_each_dedup in H as [H _].
  apply H. done.
Qed.

Lemma deduplicated_at_most_failed_witness :
  ∃ t lv,
    check_flows true example_info
      [flow_header; core_to_shared; core_to_spoke; core_to_spoke_again]
    = Ok (t, lv)
    ∧ failed_count t = 2
    ∧ Z.of_nat (size (failed_strings t)) ≤ failed_count t.
Proof.
  match goal with
  | |- ∃ t lv, check_flows ?sw ?info ?rows = _ ∧ _ =>
      let r := returned (check_flows sw info rows) in
      exists r.1, r.2; split; [vm_refl|]; split; [vm_refl|];
      assert (Hrun : check_flows sw info rows = Ok (r.1, r.2)) by vm_refl;
      exact (deduplicated_at_most_failed _ _ _ _ _ Hrun)
  end.
Defined.

(** * Further properties of the rows of the flow log *)

Module reader_facts.

Lemma foldl_insert_lookup_None {V} (f : string → V) (keys : list string)
    (d : gmap string V) (k : string) :
  k ∉ keys →
  foldl (λ d key, <[key := f key]> d) d keys !! k = d !! k.
Proof.
  revert d. induction keys as [|x keys IH]; intros d Hk; [done|].
  cbn [foldl]. rewrite IH by (intros ?; apply Hk; by right).
  apply lookup_insert_ne. intros ->. apply Hk. by left.
Qed.

(** The keys of a row dict are the field names, whatever the row. *)
Lemma row_dict_is_Some (fields row : list string) (k : string) :
  is_Some (row_dict fields row !! k) ↔ k ∈ fields.
Proof.
  unfold row_dict.
  assert (Hz : ∀ (l : list (string * string)) (d : gmap string pyval),
            is_Some (foldl (λ d kv, <[kv.1 := VStr kv.2]> d) d l !! k)
            ↔ k ∈ l.*1 ∨ is_Some (d !! k)).
  { induction l as [|[x v] l IH]; intros d; cbn [foldl fmap list_fmap].
    - split; [by right | by intros [H%elem_of_nil|]].
    - rewrite IH. cbn [fst snd]. rewrite elem_of_cons.
      destruct (decide (x = k)) as [->|Hne].
      + rewrite lookup_insert_eq.
        split; [intros _; left; by left | intros _; right; by eexists].
      + rewrite lookup_insert_ne by done.
        split; [intros [?|?]; auto | intros [[->|?]|?]; [done|auto..]]. }
  assert (Hr : ∀ (l : list string) (d : gmap string pyval),
            is_Some (foldl (λ d key, <[key := VNone]> d) d l !! k)
            ↔ k ∈ l ∨ is_Some (d !! k)).
  { induction l as [|x l IH]; intros d; cbn [foldl].
    - split; [by right | by intros [H%elem_of_nil|]].
    - rewrite IH. rewrite elem_of_cons.
      destruct (decide (x = k)) as [->|Hne].
      + rewrite lookup_insert_eq.
        split; [intros _; left; by left | intros _; right; by eexists].
      + rewrite lookup_insert_ne by done.
        split; [intros [?|?]; auto | intros [[->|?]|?]; [done|auto..]]. }
  rewrite Hr, Hz, lookup_empty.
  rewrite <- (take_drop (length row) fields) at 3.
  rewrite elem_of_app.
  assert (Hfst : (zip fields row).*1 = take (length row) fields).
  { clear. revert row. induction fields as [|x fields IH]; intros [|v row];
      cbn; try done. by rewrite IH. }
  rewrite Hfst. split; [|intros [?|?]; auto].
  intros [?|[?|[? [=]]]]; auto.
Qed.

Lemma foldl_insert_untouched {A V} (key : A → string) (val : A → V)
    (l : list A) (d : gmap string V) (k : string) :
  k ∉ key <$> l →
  foldl (λ d x, <[key x := val x]> d) d l !! k = d !! k.
Proof.
  revert d. induction l as [|x l IH]; intros d Hk; [done|].
  cbn [foldl]. rewrite IH by (intros ?; apply Hk; by right).
  apply lookup_insert_ne. intros Heq. apply Hk. rewrite <- Heq. by left.
Qed.

Lemma foldl_insert_NoDup {A V} (key : A → string) (val : A → V)
    (l : list A) (d : gmap string V) (x : A) :
  NoDup (key <$> l) → x ∈ l →
  foldl (λ d x, <[key x := val x]> d) d l !! key x = Some (val x).
Proof.
  revert d. induction l as [|y l IH]; intros d Hnd Hx; [by inversion Hx|].
  cbn [fmap list_fmap] in Hnd. apply NoDup_cons in Hnd as [Hy Hnd].
  cbn [foldl]. apply elem_of_cons in Hx as [->|Hx].
  - rewrite foldl_insert_untouched by done. apply lookup_insert_eq.
  - by apply IH.
Qed.

(** With distinct field names, the value under a field name is the field
    of the row at the position of that name, or [None] when the row is too
    short. *)
Lemma row_dict_lookup (fields row : list string) (i : nat) (k : string) :
  NoDup fields → fields !! i = Some k →
  row_dict fields row !! k
  = Some (match row !! i with Some v => VStr v | None => VNone end).
Proof.
  intros Hnd Hi. unfold row_dict.
  assert (Hfst : ∀ (fs rw : list string), (zip fs rw).*1 = take (length rw) fs).
  { induction fs as [|x fs IH]; intros [|v rw]; cbn; try done.
    by rewrite IH. }
  rewrite <- (take_drop (length row) fields) in Hnd.
  apply NoDup_app in Hnd as (Hnd1 & Hdisj & Hnd2).
  destruct (row !! i) as [v|] eqn:Hv.
  - assert (Hlt : (i < length row)%nat) by (by eapply lookup_lt_Some).
    assert (Hk : k ∈ take (length row) fields).
    { apply list_elem_of_lookup. exists i. by rewrite lookup_take_lt. }
    rewrite (foldl_insert_untouched id (λ _, VNone))
      by (rewrite list_fmap_id; by apply Hdisj).
    apply (foldl_insert_NoDup fst (λ kv, VStr kv.2) _ _ (k, v)).
    + by rewrite Hfst.
    + apply list_elem_of_lookup. exists i. apply lookup_zip_with_Some.
      by exists k, v.
  - apply lookup_ge_None in Hv.
    apply (foldl_insert_NoDup id (λ _, VNone) _ _ k).
    + by rewrite list_fmap_id.
    + apply list_elem_of_lookup. exists (i - length row)%nat.
      rewrite lookup_drop. rewrite <- Hi. f_equal. lia.
Qed.

Lemma drain_rows (fields : list string) (data : list (list string))
    (r : gmap string pyval) :
  r ∈ drain fields data → ∃ row, r = row_dict fields row.
Proof.
  induction data as [|row data IH]; cbn [drain]; [by inversion 1|].
  destruct row as [|x row]; [done|].
  intros [->|H]%elem_of_cons; [by eexists | by apply IH].
Qed.


End reader_facts.

Import reader_facts order_facts.

(** X4: a header without one of the columns [src], [dest], [numpackets]
    stops the run with the [KeyError] of the first of them that is missing,
    on the first row that the loop receives; a missing [numpackets] does so
    although its value is never used. *)
Theorem missing_column_stops_the_run (show_warnings : bool)
    (info : gmap string info_dict) (header : list string)
    (data : list (list string)) :
  (1 < length (drain header data))%nat →
  ("src" ∉ header →
     check_flows show_warnings info (header :: data)
     = Raise (KeyError (VStr "src")))
  ∧ ("src" ∈ header → "dest" ∉ header →
     check_flows show_warnings info (header :: data)
     = Raise (KeyError (VStr "dest")))
  ∧ ("src" ∈ header → "dest" ∈ header → "numpackets" ∉ header →
     check_flows show_warnings info (header :: data)
     = Raise (KeyError (VStr "numpackets"))).
Proof.
  intros Hlen. unfold check_flows. rewrite check_flows_rows.
  destruct (drain header data) as [|r0 [|r rest]] eqn:Hd;
    [simpl in Hlen; lia.. |].
  assert (Hr : ∃ row, r = row_dict header row).
  { apply (drain_rows header data). rewrite Hd. right. by left. }
  destruct Hr as [row ->]. cbn [drop for_each].
  assert (Hget : ∀ k, k ∉ header →
            getitem (row_dict header row) k = Raise (KeyError (VStr k))).
  { intros k Hk. unfold getitem.
    destruct (row_dict header row !! k) eqn:Hl; [|done].
    exfalso. apply Hk. apply (row_dict_is_Some header row). by eexists. }
  assert (Hok : ∀ k, k ∈ header →
            ∃ v, getitem (row_dict header row) k = Ok v).
  { intros k Hk. apply (row_dict_is_Some header row) in Hk as [v Hv].
    exists v. unfold getitem. by rewrite Hv. }
  unfold process_row. split_and!.
  - intros H. by rewrite (Hget _ H).
  - intros Hs H. destruct (Hok _ Hs) as [v ->]. cbn [mbind outcome_bind].
    by rewrite (Hget _ H).
  - intros Hs Hd' H. destruct (Hok _ Hs) as [v ->].
    destruct (Hok _ Hd') as [v' ->]. cbn [mbind outcome_bind].
    by rewrite (Hget _ H).
Qed.

Lemma missing_column_stops_the_run_witness :
  check_flows true example_info
    [["src"; "dest"]; ["10.0.0"; "10.0.8"]; ["10.0.0"; "10.0.5"]]
  = Raise (KeyError (VStr "numpackets")).
Proof.
  refine (proj2 (proj2 (missing_column_stops_the_run true example_info
            ["src"; "dest"] [["10.0.0"; "10.0.8"]; ["10.0.0"; "10.0.5"]] _))
            _ _ _).
  - simpl. lia.
  - by left.
  - right. by left.
  - intros H. apply list_elem_of_In in H. simpl in H. intuition discriminate.
Defined.

(** X5: with warnings on and a header that has the three columns, the run
    returns whatever the data rows are: no row can stop it. *)
Theorem run_with_warnings_returns (info : gmap string info_dict)
    (header : list string) (data : list (list string)) :
  "src" ∈ header → "dest" ∈ header → "numpackets" ∈ header →
  ∃ t lv, check_flows true info (header :: data) = Ok (t, lv).
Proof.
  intros Hs Hd Hn. unfold check_flows. rewrite check_flows_rows.
  assert (Hrows : Forall has_columns (drop 1 (drain header data))).
  { apply Forall_forall. intros r Hr.
    assert (Hin : r ∈ drain header data).
    { apply list_elem_of_lookup in Hr as [i Hi]. rewrite lookup_drop in Hi.
      by eapply list_elem_of_lookup_2. }
    apply drain_rows in Hin as [row ->].
    unfold has_columns. by rewrite !row_dict_is_Some. }
  destruct (for_each_warnings info _ tally0 locals0 Hrows) as [lv H].
  eauto.
Qed.

Lemma run_with_warnings_returns_witness :
  ∃ t lv,
    check_flows true example_info
      [flow_header; core_to_shared; ["10.0.0"]; []; core_to_stray]
    = Ok (t, lv).
Proof.
  apply (run_with_warnings_returns example_info flow_header
           [core_to_shared; ["10.0.0"]; []; core_to_stray]).
  - by left.
  - right. by left.
  - right. right. by left.
Defined.


(** X7: a data line that ends before the [dest] column gives [None] for
    [dest]: with warnings on, when its src is in the index, the row is
    counted in [unmatched] alone and the warning names [None]. *)
Theorem short_row_is_unmatched (info : gmap string info_dict)
    (fields row : list string) (i j : nat) (src : string) (s : info_dict)
    (t : tally) (lv : locals) :
  NoDup fields →
  fields !! i = Some "src" →
  fields !! j = Some "dest" →
  "numpackets" ∈ fields →
  row !! i = Some src →
  (length row ≤ j)%nat →
  info !! src = Some s →
  ∃ t' lv',
    process_row true info (row_dict fields row) (t, lv) = Ok (t', lv')
    ∧ unmatched_count t' = unmatched_count t + 1
    ∧ success_count t' = success_count t
    ∧ failed_count t' = failed_count t
    ∧ warning_strings t'
      = {[ "Warning: no entry for None" ]} ∪ warning_strings t.
Proof.
  intros Hnd Hi Hj Hn Hsrc Hlen Hs.
  apply (row_dict_is_Some fields row) in Hn as [np Hnp].
  unfold process_row, getitem.
  rewrite (row_dict_lookup fields row i "src" Hnd Hi), Hsrc.
  rewrite (row_dict_lookup fields row j "dest" Hnd Hj).
  rewrite (lookup_ge_None_2 row j) by done. rewrite Hnp.
  cbn [mbind outcome_bind]. unfold try_lookup. cbn [info_getitem].
  rewrite Hs. unfold except_KeyError.
  eexists _, _. split; [reflexivity|]. by split_and!.
Qed.

Lemma short_row_is_unmatched_witness :
  ∃ t' lv',
    process_row true example_info (row_dict flow_header ["10.0.0"])
      (tally0, locals0) = Ok (t', lv')
    ∧ unmatched_count t' = 1
    ∧ warning_strings t' = {[ "Warning: no entry for None" ]}.
Proof.
  destruct (short_row_is_unmatched example_info flow_header ["10.0.0"]
              0 1 "10.0.0" core_info tally0 locals0)
    as (t' & lv' & Hrun & Hu & _ & _ & Hw).
  - repeat constructor; intros H; apply list_elem_of_In in H; simpl in H;
      intuition discriminate.
  - reflexivity.
  - reflexivity.
  - right. right. by left.
  - reflexivity.
  - simpl. lia.
  - reflexivity.
  - exists t', lv'. split; [exact Hrun|]. split; [rewrite Hu; reflexivity|].
    rewrite Hw. vm_compute. reflexivity.
Defined.

(** * Further properties of the topology loader *)

Module more_loader_facts.
Import ipaddress ipaddress_facts Str_facts block_facts loader_facts
  raise_facts sheet_facts.

(** One row adds at most one printed line, and none without warnings. *)
Lemma load_row_out (v6 : string → option (list string)) (show_warnings : bool)
    (row : sheet_row) (d d' : gmap string info_dict) (out out' : list string) :
  load_row v6 show_warnings row (d, out) = Ok (d', out') →
  ∃ extra, out' = out ++ extra ∧ (length extra ≤ 1)%nat
           ∧ (show_warnings = false → extra = []).
Proof.
  unfold load_row. intros H. repeat case_match; simplify_eq.
  - exists []. rewrite app_nil_r. split_and!; [done | simpl; lia | done].
  - eexists [_]. split_and!; [done | simpl; lia | done].
  - exists []. rewrite app_nil_r. split_and!; [done | simpl; lia | done].
Qed.


(** The first three octets fix the block. *)
Lemma three_octets_inj (b b' : Z) :
  0 ≤ b < 2 ^ 32 → 0 ≤ b' < 2 ^ 32 →
  three_octets b = three_octets b' → b `div` 256 = b' `div` 256.
Proof.
  intros Hb Hb' Heq.
  assert (Hnd : ∀ x, 0 ≤ x < 256 →
            Str.all_chars (other_than ".") (pretty x) = true).
  { intros x Hx. eapply all_chars_impl; [|by apply pretty_small_digits].
    by apply digit_other_than. }
  assert (Ho : ∀ x, 0 ≤ x < 2 ^ 32 →
            0 ≤ x `div` 2 ^ 24 < 256
            ∧ 0 ≤ (x `div` 2 ^ 16) `mod` 256 < 256
            ∧ 0 ≤ (x `div` 2 ^ 8) `mod` 256 < 256).
  { intros x Hx. split_and!; try (apply Z.mod_pos_bound; lia).
    - apply Z.div_pos; lia.
    - apply Z.div_lt_upper_bound; lia. }
  destruct (Ho b Hb) as (H1 & H2 & H3).
  destruct (Ho b' Hb') as (H1' & H2' & H3').
  apply (f_equal (Str.split ".")) in Heq. unfold three_octets in Heq.
  rewrite !split_join_sep in Heq by auto.
  rewrite !split_whole in Heq by auto.
  injection Heq as E1 E2 E3.
  apply (inj pretty) in E1. apply (inj pretty) in E2. apply (inj pretty) in E3.
  assert (Hq : ∀ x, x `div` 256
               = 65536 * (x `div` 2 ^ 24)
                 + 256 * ((x `div` 2 ^ 16) `mod` 256)
                 + (x `div` 2 ^ 8) `mod` 256).
  { intros x. change (2 ^ 8) with 256.
    replace (x `div` 2 ^ 16) with ((x `div` 256) `div` 256)
      by (rewrite Z.div_div by lia; done).
    replace (x `div` 2 ^ 24) with (((x `div` 256) `div` 256) `div` 256)
      by (rewrite !Z.div_div by lia; done).
    pose proof (Z.div_mod (x `div` 256) 256 ltac:(lia)).
    pose proof (Z.div_mod ((x `div` 256) `div` 256) 256 ltac:(lia)).
    lia. }
  rewrite (Hq b), (Hq b'). congruence.
Qed.

Lemma bind_blocks_size (info : info_dict) (blocks : list string)
    (d : gmap string info_dict) :
  NoDup (map block_key blocks) →
  (∀ k, k ∈ map block_key blocks → d !! k = None) →
  size (bind_blocks info blocks d) = (size d + length blocks)%nat.
Proof.
  unfold bind_blocks. revert d.
  induction blocks as [|b blocks IH]; intros d Hnd Hfresh; cbn [foldl map].
  - cbn [length]. lia.
  - cbn [map] in Hnd. apply NoDup_cons in Hnd as [Hb Hnd].
    rewrite IH; [|done|].
    + rewrite map_size_insert_None by (apply Hfresh; by left).
      cbn [length]. lia.
    + intros k Hk. rewrite lookup_insert_ne.
      * apply Hfresh. by right.
      * intros <-. done.
Qed.

End more_loader_facts.

Import block_facts more_loader_facts.





(** X10: a cidr whose address has bits outside its netmask, such as
    [10.0.1.0/16], is rejected by the strict [ip_network]: the row binds no
    key, whatever its prefix, and with warnings on prints the line that
    says it is shorter than /24. *)
Theorem host_bits_set_is_skipped (v6 : string → option (list string))
    (show_warnings : bool) (row : sheet_row) (c addr : string)
    (mask : mask_arg) (na m p : Z) (d : gmap string info_dict)
    (out : list string) :
  row_cidr row = VStr c →
  _split_addr_prefix (normalize_cidr c) = Ok (addr, mask) →
  IPv4Address addr = Ok na →
  _make_netmask mask = Ok (m, p) →
  Z.land na m ≠ na →
  load_row v6 show_warnings row (d, out)
  = Ok (d, if show_warnings
           then out ++ ["Skipping " +:+ normalize_cidr c +:+ " ("
                        +:+ py_str (row_name row) +:+ "), shorter than /24. "]
           else out).
Proof.
  intros Hc Hsplit Haddr Hmask Hbits. unfold load_row. rewrite Hc.
  change (cidr (information c row)) with (normalize_cidr c).
  unfold subnets24_exploded, IPv4Network.
  rewrite Hsplit. cbn [mbind outcome_bind]. rewrite Haddr.
  cbn [mbind outcome_bind]. rewrite Hmask. cbn [mbind outcome_bind].
  destruct (Z.eqb_spec (Z.land na m) na); [done|]. reflexivity.
Qed.

Lemma host_bits_set_is_skipped_witness :
  load_row no_ipv6 true (with_cidr (VStr "10.0.1.0/16") core_row) (∅, [])
  = Ok (∅, ["Skipping 10.0.1.0/16 (Core), shorter than /24. "]).
Proof.
  apply (host_bits_set_is_skipped no_ipv6 true
           (with_cidr (VStr "10.0.1.0/16") core_row) "10.0.1.0/16"
           "10.0.1.0" (MaskStr "16") 167772416 4294901760 16 ∅ []).
  - reflexivity.
  - vm_compute. reflexivity.
  - vm_compute. reflexivity.
  - vm_compute. reflexivity.
  - vm_compute. discriminate.
Defined.

(** X11: two /24 blocks have the same key only when they are the same
    block: the key of an address fixes its first three octets. *)
Theorem same_key_same_block (b b' : Z) (q q' : Z) :
  0 ≤ b < 2 ^ 32 → 0 ≤ b' < 2 ^ 32 → 0 ≤ q ≤ 32 → 0 ≤ q' ≤ 32 →
  block_key (exploded (mkNet b q)) = block_key (exploded (mkNet b' q')) →
  b `div` 256 = b' `div` 256.
Proof.
  intros Hb Hb' Hq Hq'. rewrite !block_key_exploded by done.
  by apply three_octets_inj.
Qed.

Lemma same_key_same_block_witness :
  block_key (exploded (mkNet 167772416 24))
  = block_key (exploded (mkNet 167772419 32))
  ∧ 167772416 `div` 256 = 167772419 `div` 256.
Proof.
  split; [reflexivity|].
  apply (same_key_same_block 167772416 167772419 24 32); try lia.
  reflexivity.
Defined.

(** X12: a row whose cidr is an IPv4 network of prefix [p ≤ 24] goes
    through [2 ^ (24 - p)] blocks with pairwise different keys: loaded into
    an empty index it gives an index of that many keys. *)
Theorem number_of_keys (v6 : string → option (list string))
    (show_warnings : bool) (row : sheet_row) (c : string) (n : IPv4Net) :
  row_cidr row = VStr c →
  IPv4Network (normalize_cidr c) = Ok n →
  prefixlen n ≤ 24 →
  NoDup (row_keys v6 row)
  ∧ Z.of_nat (length (row_keys v6 row)) = 2 ^ (24 - prefixlen n)
  ∧ ∃ d, load_row v6 show_warnings row (∅, []) = Ok (d, [])
         ∧ Z.of_nat (size d) = 2 ^ (24 - prefixlen n).
Proof.
  intros Hc Hn Hp.
  pose proof (IPv4Network_inv _ _ Hn) as (Ha & Hp' & Hal).
  assert (Hpos : 0 < 2 ^ (24 - prefixlen n)) by (apply Z.pow_pos_nonneg; lia).
  pose proof (block_top _ _ Ha Hp' Hal) as Htop.
  assert (Hpow : 2 ^ (32 - prefixlen n) = 256 * 2 ^ (24 - prefixlen n)).
  { replace (32 - prefixlen n) with (8 + (24 - prefixlen n)) by lia.
    by rewrite Z.pow_add_r by lia. }
  assert (Hblocks : row_blocks v6 c
            = map (λ i, exploded (mkNet (network_address n + Z.of_nat i * 256) 24))
                (seq 0 (Z.to_nat (2 ^ (24 - prefixlen n))))).
  { unfold row_blocks. by rewrite (subnets24_exploded_le24 v6 _ n Hn Hp). }
  assert (Hnd : NoDup (row_keys v6 row)).
  { unfold row_keys. rewrite Hc, Hblocks, map_map.
    apply (NoDup_fmap_2_strong
             (λ i, block_key (exploded (mkNet (network_address n + Z.of_nat i * 256) 24)))).
    - intros i j Hi Hj Heq.
      apply list_elem_of_In, in_seq in Hi. apply list_elem_of_In, in_seq in Hj.
      rewrite !block_key_exploded in Heq by lia.
      apply three_octets_inj in Heq; [|lia..].
      rewrite !Z.div_add in Heq by lia. lia.
    - apply NoDup_ListNoDup, seq_NoDup. }
  assert (Hlen : Z.of_nat (length (row_keys v6 row)) = 2 ^ (24 - prefixlen n)).
  { unfold row_keys. rewrite Hc, Hblocks, !length_map, length_seq. lia. }
  split; [exact Hnd|]. split; [exact Hlen|].
  destruct (load_row_text v6 show_warnings row c ∅ [] Hc) as [out Hrun].
  pose proof Hrun as Hout. apply load_row_out in Hout as (extra & -> & _).
  assert (Hex : extra = []).
  { unfold load_row in Hrun. rewrite Hc in Hrun.
    change (cidr (information c row)) with (normalize_cidr c) in Hrun.
    rewrite (subnets24_exploded_le24 v6 _ n Hn Hp) in Hrun.
    injection Hrun as _ Hrun. by destruct extra. }
  subst extra. eexists. split; [exact Hrun|].
  unfold row_keys in Hnd, Hlen. rewrite Hc in Hnd, Hlen.
  rewrite length_map in Hlen.
  rewrite bind_blocks_size; [|done|by intros].
  rewrite map_size_empty. lia.
Qed.

Lemma number_of_keys_witness :
  NoDup (row_keys no_ipv6 core_row)
  ∧ Z.of_nat (length (row_keys no_ipv6 core_row)) = 2.
Proof.
  destruct (number_of_keys no_ipv6 true core_row "10.0.0.0/23"
              (mkNet 167772160 23)) as (Hnd & Hlen & _).
  - reflexivity.
  - vm_compute. reflexivity.
  - simpl. lia.
  - split; [exact Hnd | exact Hlen].
Defined.
